(** * SpaceX launch tracker: the data-fetch-and-normalize layer of [main.py]

    A shallow embedding of the functions of [src/main.py] that fetch,
    index, sort, filter and format launch data, and the properties the
    specification states about them.

    Conventions of the embedding.
    - A decoded JSON payload is a value of [json].  Python's [None] and
      JSON [null] are the same object and both are [JNull].  JSON numbers
      are restricted to integers: no field the program reads is fractional.
      A decoded object is a dict: each of its fields is listed once.
    - A Python [str] is a [string] holding its UTF-8 bytes.  Byte-wise
      lexicographic order on UTF-8 is code-point order, which is how
      Python compares [str].  [str.lower] and [str.strip] are embedded on
      strings of ASCII characters; on a string with another character
      they end in [OutsideModel], as does every operation whose result
      the embedding does not describe.
    - Python exceptions that escape a function are the [Raise] outcome of
      [result]; code runs in the error monad, in source order.
    - The network is an explicit argument: a function from the requested
      URL to what [requests.get] observes.  What the program prints on
      the console is not part of the embedding; the view functions return
      the values they hand to the table and to the panel, when [rich]
      accepts them. *)

From stdpp Require Import base option list gmap strings.
From Stdlib Require Import ZArith Lia Ascii String Bool.
From Stdlib Require Import Permutation Sorted.
From Stdlib Require Import DecimalString DecimalPos DecimalZ.

Local Open Scope Z_scope.
Local Open Scope string_scope.
Local Open Scope list_scope.

(** ** Exceptions and the error monad *)

Inductive exn : Type :=
| TypeError
| AttributeError
| OutsideModel.

Inductive result (A : Type) : Type :=
| Ok (a : A)
| Raise (e : exn).

Arguments Ok {A} a.
Arguments Raise {A} e.

Definition bind {A B : Type} (m : result A) (k : A -> result B) : result B :=
  match m with
  | Ok a => k a
  | Raise e => Raise e
  end.

Notation "x <- m ;; k" := (bind m (fun x => k))
  (at level 100, m at next level, right associativity).

Fixpoint mapM {A B : Type} (f : A -> result B) (l : list A) : result (list B) :=
  match l with
  | [] => Ok []
  | x :: xs => y <- f x ;; ys <- mapM f xs ;; Ok (y :: ys)
  end.

(** A [for] loop that threads an accumulator and stops at the first
    exception. *)
Fixpoint foldM {A S : Type} (step : S -> A -> result S) (s : S) (l : list A)
  : result S :=
  match l with
  | [] => Ok s
  | x :: xs => s' <- step s x ;; foldM step s' xs
  end.

(** A list comprehension with a fallible condition. *)
Fixpoint filterM {A : Type} (f : A -> result bool) (l : list A)
  : result (list A) :=
  match l with
  | [] => Ok []
  | x :: xs =>
      b <- f x ;; ys <- filterM f xs ;; Ok (if b : bool then x :: ys else ys)
  end.

(** ** Decoded JSON values *)

#[local] Set Warnings "-register-all".

Inductive json : Type :=
| JNull
| JBool (b : bool)
| JNum (n : Z)
| JStr (s : string)
| JArr (items : list json)
| JObj (fields : list (string * json)).

(** Python truth value: [None], [False], [0], [""], [[]] and [{}] are
    false, everything else is true. *)
Definition truthy (v : json) : bool :=
  match v with
  | JNull => false
  | JBool b => b
  | JNum n => negb (Z.eqb n 0)
  | JStr s => negb (String.eqb s "")
  | JArr items => match items with [] => false | _ => true end
  | JObj fields => match fields with [] => false | _ => true end
  end.

(** [a or b] *)
Definition py_or (a b : json) : json := if truthy a then a else b.

(** A decoded object is a dict: its fields are looked up by name. *)
Fixpoint dict_find (fields : list (string * json)) (k : string) : option json :=
  match fields with
  | [] => None
  | (k', v) :: rest => if String.eqb k' k then Some v else dict_find rest k
  end.

(** [d.get(k)] on a dict: the value bound to [k], or [None]. *)
Definition dict_get (fields : list (string * json)) (k : string) : json :=
  match dict_find fields k with
  | Some v => v
  | None => JNull
  end.

(** [x.get(k)]: only a dict has the method. *)
Definition py_get (x : json) (k : string) : result json :=
  match x with
  | JObj fields => Ok (dict_get fields k)
  | _ => Raise AttributeError
  end.

(** [for r in v]: a list yields its items, a dict its keys, a str its
    characters; numbers and booleans are not iterable.  ([None] never
    reaches a loop: it is replaced by [[]] first.) *)
Definition py_iter (v : json) : result (list json) :=
  match v with
  | JArr items => Ok items
  | JObj fields => Ok (map (fun kv => JStr (fst kv)) fields)
  | JStr s => Ok (map (fun c => JStr (String c "")) (list_ascii_of_string s))
  | _ => Raise TypeError
  end.

(** ** Keys of a Python dict

    [True] and [1] hash and compare equal, so they are one key. *)

Inductive pykey : Type :=
| KNone
| KInt (n : Z)
| KStr (s : string).

Global Instance pykey_eq_dec : EqDecision pykey.
Proof. solve_decision. Defined.

Global Instance pykey_countable : Countable pykey.
Proof.
  refine (inj_countable'
    (fun k => match k with
              | KNone => inl ()
              | KInt n => inr (inl n)
              | KStr s => inr (inr s)
              end)
    (fun c => match c with
              | inl _ => KNone
              | inr (inl n) => KInt n
              | inr (inr s) => KStr s
              end) _).
  by intros [].
Defined.

(** Hashing a value to use it as a key: lists and dicts are unhashable. *)
Definition hash_key (v : json) : result pykey :=
  match v with
  | JNull => Ok KNone
  | JBool b => Ok (KInt (if b then 1 else 0))
  | JNum n => Ok (KInt n)
  | JStr s => Ok (KStr s)
  | JArr _ | JObj _ => Raise TypeError
  end.

(** [mapping.get(k, default)] *)
Definition dict_get_default (m : gmap pykey json) (k : json) (default : json)
  : result json :=
  key <- hash_key k ;;
  Ok (match m !! key with Some v => v | None => default end).

(** ** Strings *)

Definition is_upper (c : ascii) : bool :=
  (65 <=? nat_of_ascii c)%nat && (nat_of_ascii c <=? 90)%nat.

Definition lower_char (c : ascii) : ascii :=
  if is_upper c then ascii_of_nat (nat_of_ascii c + 32) else c.

Definition is_ascii (c : ascii) : bool := (nat_of_ascii c <? 128)%nat.

(** The string holds ASCII characters only. *)
Definition ascii_only (s : string) : bool :=
  forallb is_ascii (list_ascii_of_string s).

(** What [str.lower] does to a string of ASCII characters: the letters
    [A] to [Z] become [a] to [z]. *)
Fixpoint ascii_lower (s : string) : string :=
  match s with
  | EmptyString => EmptyString
  | String c s' => String (lower_char c) (ascii_lower s')
  end.

(** [s.lower()].  The case mapping of characters beyond ASCII is not part
    of the embedding. *)
Definition str_lower (s : string) : result string :=
  if ascii_only s then Ok (ascii_lower s) else Raise OutsideModel.

(** The ASCII characters [str.isspace] accepts: tab to carriage return,
    the four separators 28 to 31, and space. *)
Definition is_space (c : ascii) : bool :=
  let n := nat_of_ascii c in
  ((9 <=? n)%nat && (n <=? 13)%nat) || ((28 <=? n)%nat && (n <=? 32)%nat).

Fixpoint ascii_lstrip (s : string) : string :=
  match s with
  | EmptyString => EmptyString
  | String c s' => if is_space c then ascii_lstrip s' else s
  end.

Fixpoint ascii_rstrip (s : string) : string :=
  match s with
  | EmptyString => EmptyString
  | String c s' =>
      match ascii_rstrip s' with
      | EmptyString => if is_space c then EmptyString else String c EmptyString
      | t => String c t
      end
  end.

(** What [str.strip] does to a string of ASCII characters. *)
Definition ascii_strip (s : string) : string := ascii_rstrip (ascii_lstrip s).

(** [s.strip()].  The white space beyond ASCII that [str.strip] also
    removes is not part of the embedding. *)
Definition str_strip (s : string) : result string :=
  if ascii_only s then Ok (ascii_strip s) else Raise OutsideModel.

Fixpoint starts_with (needle hay : string) : bool :=
  match needle, hay with
  | EmptyString, _ => true
  | String _ _, EmptyString => false
  | String a needle', String b hay' => Ascii.eqb a b && starts_with needle' hay'
  end.

(** [needle in hay] on two strs. *)
Fixpoint contains (needle hay : string) : bool :=
  starts_with needle hay ||
  match hay with
  | EmptyString => false
  | String _ hay' => contains needle hay'
  end.

(** [s.replace(old, new)] for a one-character [old]. *)
Fixpoint replace_char (old : ascii) (new : string) (s : string) : string :=
  match s with
  | EmptyString => EmptyString
  | String c s' =>
      if Ascii.eqb c old then new +:+ replace_char old new s'
      else String c (replace_char old new s')
  end.

(** [sep.join(parts)]: every part must be a str. *)
Fixpoint str_join (sep : string) (parts : list json) : result string :=
  match parts with
  | [] => Ok ""
  | JStr s :: rest =>
      match rest with
      | [] => Ok s
      | _ => t <- str_join sep rest ;; Ok (s +:+ sep +:+ t)
      end
  | _ :: _ => Raise TypeError
  end.

(** [str(v)] as an f-string field renders it.  The repr of a list or a
    dict is not part of the embedding. *)
Definition py_str (v : json) : result string :=
  match v with
  | JNull => Ok "None"
  | JBool b => Ok (if b then "True" else "False")
  | JNum n => Ok (NilZero.string_of_int (Z.to_int n))
  | JStr s => Ok s
  | JArr _ | JObj _ => Raise OutsideModel
  end.

(** ** Comparison of values *)

Definition as_number (v : json) : option Z :=
  match v with
  | JBool b => Some (if b then 1 else 0)
  | JNum n => Some n
  | _ => None
  end.

(** [a == b]: never raises. *)
Fixpoint py_eq (a b : json) {struct a} : bool :=
  match a, b with
  | JNull, JNull => true
  | JStr x, JStr y => String.eqb x y
  | JArr xs, JArr ys =>
      (fix all2 (xs ys : list json) {struct xs} : bool :=
         match xs, ys with
         | [], [] => true
         | x :: xs', y :: ys' => py_eq x y && all2 xs' ys'
         | _, _ => false
         end) xs ys
  | JObj fs, JObj gs =>
      Nat.eqb (List.length fs) (List.length gs) &&
      (fix all_in (fs : list (string * json)) {struct fs} : bool :=
         match fs with
         | [] => true
         | (k, v) :: fs' =>
             match dict_find gs k with
             | Some w => py_eq v w
             | None => false
             end && all_in fs'
         end) fs
  | (JBool _ | JNum _), (JBool _ | JNum _) =>
      match as_number a, as_number b with
      | Some x, Some y => Z.eqb x y
      | _, _ => false
      end
  | _, _ => false
  end.

(** [a < b]: defined between two strs, between two numbers, and between
    two lists (at the first position where they differ); [TypeError]
    otherwise. *)
Fixpoint py_lt (a b : json) {struct a} : result bool :=
  match a, b with
  | JStr x, JStr y => Ok (String.ltb x y)
  | JArr xs, JArr ys =>
      (fix first_diff (xs ys : list json) {struct xs} : result bool :=
         match xs, ys with
         | [], [] => Ok false
         | [], _ :: _ => Ok true
         | _ :: _, [] => Ok false
         | x :: xs', y :: ys' =>
             if py_eq x y then first_diff xs' ys' else py_lt x y
         end) xs ys
  | (JBool _ | JNum _), (JBool _ | JNum _) =>
      match as_number a, as_number b with
      | Some x, Some y => Ok (Z.ltb x y)
      | _, _ => Raise TypeError
      end
  | _, _ => Raise TypeError
  end.

(** ** [list.sort(key=..., reverse=...)]

    CPython computes every key first, then sorts the keys with [<] only,
    always asking whether a later element is less than an earlier one, and
    keeps equal elements in their original order; with [reverse=True] it
    reverses the list, sorts it the same way, and reverses the result.
    The embedding is the insertion sort with these properties.  On a list
    whose comparisons all succeed it returns what CPython returns, the
    stable ordering being unique. *)

Fixpoint insert_keyed (x : json * json) (sorted : list (json * json))
  : result (list (json * json)) :=
  match sorted with
  | [] => Ok [x]
  | y :: rest =>
      b <- py_lt (fst y) (fst x) ;;
      if b : bool then (r <- insert_keyed x rest ;; Ok (y :: r))
      else Ok (x :: y :: rest)
  end.

Fixpoint sort_keyed (l : list (json * json)) : result (list (json * json)) :=
  match l with
  | [] => Ok []
  | x :: xs => s <- sort_keyed xs ;; insert_keyed x s
  end.

Definition list_sort (key : json -> result json) (reverse : bool)
  (l : list json) : result (list json) :=
  keyed <- mapM (fun x => k <- key x ;; Ok (k, x)) l ;;
  sorted <- sort_keyed (if reverse then rev keyed else keyed) ;;
  Ok (map snd (if reverse then rev sorted else sorted)).

(** [v.sort(...)]: only a list has the method. *)
Definition py_sort (key : json -> result json) (reverse : bool) (v : json)
  : result (list json) :=
  match v with
  | JArr items => list_sort key reverse items
  | _ => Raise AttributeError
  end.

(** [l[:stop]]: a negative [stop] counts from the end. *)
Definition slice_to {A : Type} (stop : Z) (l : list A) : list A :=
  if Z.leb 0 stop then firstn (Z.to_nat stop) l
  else firstn (List.length l - Z.to_nat (- stop)) l.

(** ** The HTTP fetch wrapper *)

Definition API_BASE : string := "https://api.spacexdata.com/v5".

(** What one [requests.get(url, timeout=15)] observes: the connection
    fails, the timeout expires, or a response arrives with a status code
    and a body that decodes as JSON or does not. *)
Inductive http_outcome : Type :=
| ConnectionFailed
| TimedOut
| Response (status : Z) (body : option json).

Definition network : Type := string -> http_outcome.

(** [resp.raise_for_status()] raises [HTTPError] on a 4xx or 5xx status. *)
Definition raise_for_status (status : Z) : bool :=
  Z.leb 400 status && Z.ltb status 600.

(** [fetch_json]: every [requests.RequestException] (connection error,
    timeout, [HTTPError], undecodable body) is caught and [None] is
    returned after the diagnostic is printed. *)
Definition fetch_json (net : network) (path : string) : json :=
  match net (API_BASE +:+ path) with
  | ConnectionFailed => JNull
  | TimedOut => JNull
  | Response status body =>
      if raise_for_status status then JNull
      else match body with
           | Some payload => payload
           | None => JNull
           end
  end.

(** ** Reference-data loaders *)

Definition rocket_step (mapping : gmap pykey json) (r : json)
  : result (gmap pykey json) :=
  _id <- py_get r "id" ;;
  n <- py_get r "name" ;;
  let name := py_or n (JStr "Unknown rocket") in
  if truthy _id then (k <- hash_key _id ;; Ok (<[k := name]> mapping))
  else Ok mapping.

Definition load_rocket_map (net : network) : result (gmap pykey json) :=
  rockets <- py_iter (py_or (fetch_json net "/rockets") (JArr [])) ;;
  foldM rocket_step ∅ rockets.

(** The display value of one launchpad entry (the right-hand side stored
    in the mapping). *)
Definition pad_display (p : json) : result json :=
  n <- py_get p "name" ;;
  let name := py_or n (JStr "Unknown pad") in
  l <- py_get p "locality" ;;
  let locality := py_or l (JStr "") in
  r <- py_get p "region" ;;
  let region := py_or r (JStr "") in
  loc <- str_join ", " (List.filter truthy [locality; region]) ;;
  if truthy (JStr loc)
  then (s <- py_str name ;; Ok (JStr (s +:+ " (" +:+ loc +:+ ")")))
  else Ok name.

Definition launchpad_step (mapping : gmap pykey json) (p : json)
  : result (gmap pykey json) :=
  _id <- py_get p "id" ;;
  v <- pad_display p ;;
  k <- hash_key _id ;;
  Ok (<[k := v]> mapping).

Definition load_launchpad_map (net : network) : result (gmap pykey json) :=
  pads <- py_iter (py_or (fetch_json net "/launchpads") (JArr [])) ;;
  foldM launchpad_step ∅ pads.

(** ** Launch-list loaders *)

(** The sort key [lambda x: x.get("date_utc") or ""]. *)
Definition date_key (x : json) : result json :=
  d <- py_get x "date_utc" ;; Ok (py_or d (JStr "")).

Definition get_upcoming_launches (net : network) : result (list json) :=
  py_sort date_key false
    (py_or (fetch_json net "/launches/upcoming") (JArr [])).

(** [launches[:limit]] is taken on the sorted list. *)
Definition get_past_launches (net : network) (limit : Z) : result (list json) :=
  launches <- py_sort date_key true
                (py_or (fetch_json net "/launches/past") (JArr [])) ;;
  Ok (slice_to limit launches).

(** ** What [rich] is given to print

    The title, the cells of the table and the text of the panel are
    parsed as console markup when they are printed.  A string without an
    opening bracket holds no tag, and printing it raises nothing.  What
    [rich] makes of the brackets of any other string (a style, or a
    [MarkupError]) is not part of the embedding, and neither is the error
    with which [Table.add_row] refuses a cell that is no string. *)

Definition markup_free (s : string) : bool :=
  forallb (fun c => negb (Ascii.eqb c "[")) (list_ascii_of_string s).

(** A string printed as markup. *)
Definition print_markup (s : string) : result unit :=
  if markup_free s then Ok tt else Raise OutsideModel.

(** A value interpolated in an f-string that is printed as markup. *)
Definition print_field (v : json) : result unit :=
  s <- py_str v ;; print_markup s.

(** ** Timestamp formatting, wrapping

    [datetime.fromisoformat], [datetime.strftime] and [textwrap.fill]
    belong to the Python standard library: they are parameters of the
    section.  [None] stands for the exception either of the first two
    raises; [textwrap.fill] returns on every string. *)

Section Formatting.

Variable datetime : Type.
Variable fromisoformat : string -> option datetime.
Variable strftime : datetime -> string -> option string.
Variable textwrap_fill : string -> nat -> string.

Definition format_datetime (iso_str : json) : json :=
  if negb (truthy iso_str) then JStr "—"
  else
    match iso_str with
    | JStr s =>
        match fromisoformat (replace_char "Z" "+00:00" s) with
        | Some dt =>
            match strftime dt "%Y-%m-%d %H:%M UTC" with
            | Some out => JStr out
            | None => iso_str
            end
        | None => iso_str
        end
    | _ => iso_str
    end.

(** [mapping.get(launch.get(field), fallback)]: how both views resolve a
    reference of a launch record. *)
Definition resolve_reference (mapping : gmap pykey json) (launch : json)
  (field : string) (fallback : json) : result json :=
  ref <- py_get launch field ;;
  dict_get_default mapping ref fallback.

(** ** The table view *)

Record table_row : Type := {
  row_idx : Z;
  row_name : json;
  row_date : json;
  row_rocket : json;
  row_pad : json;
  row_success : string
}.

Definition success_cell (success : json) : string :=
  match success with
  | JBool true => "[green]✔[/green]"
  | JBool false => "[red]✖[/red]"
  | _ => "[yellow]?[/yellow]"
  end.

(** The body of the loop, up to the call of [table.add_row]. *)
Definition table_row_of (rocket_map pad_map : gmap pykey json)
  (idx : Z) (launch : json) : result table_row :=
  n <- py_get launch "name" ;;
  let name := py_or n (JStr "(no name)") in
  d <- py_get launch "date_utc" ;;
  let date := format_datetime d in
  rocket_name <- resolve_reference rocket_map launch "rocket"
                   (JStr "Unknown") ;;
  pad_name <- resolve_reference pad_map launch "launchpad"
                (JStr "Unknown") ;;
  s <- py_get launch "success" ;;
  Ok {| row_idx := idx; row_name := name; row_date := date;
        row_rocket := rocket_name; row_pad := pad_name;
        row_success := success_cell s |}.

Definition is_str (v : json) : bool :=
  match v with
  | JStr _ => true
  | _ => false
  end.

(** [table.add_row(str(idx), name, date_str, rocket_name, pad_name,
    status)]: every cell has to be a string. *)
Definition add_row (row : table_row) : result unit :=
  if is_str (row_name row) && is_str (row_date row)
     && is_str (row_rocket row) && is_str (row_pad row)
  then Ok tt
  else Raise OutsideModel.

Fixpoint table_rows (rocket_map pad_map : gmap pykey json)
  (idx : Z) (launches : list json) : result (list table_row) :=
  match launches with
  | [] => Ok []
  | launch :: rest =>
      row <- table_row_of rocket_map pad_map idx launch ;;
      _ <- add_row row ;;
      rows <- table_rows rocket_map pad_map (idx + 1) rest ;;
      Ok (row :: rows)
  end.

(** [console.print(table)]: the title and the cells taken from the data
    are printed as markup. *)
Definition print_row (row : table_row) : result unit :=
  _ <- print_field (row_name row) ;;
  _ <- print_field (row_date row) ;;
  _ <- print_field (row_rocket row) ;;
  print_field (row_pad row).

Definition print_table (title : string) (rows : list table_row)
  : result unit :=
  _ <- print_markup title ;;
  _ <- mapM print_row rows ;;
  Ok tt.

Inductive table_view : Type :=
| NoLaunchesPanel (title : string)
| LaunchTable (title : string) (rows : list table_row).

(** [show_launch_table]: the rows of the table it prints, numbered from
    1.  Both reference maps are fetched anew for the pass. *)
Definition show_launch_table (net : network) (title : string)
  (launches : list json) : result table_view :=
  match launches with
  | [] =>
      _ <- print_markup title ;;
      Ok (NoLaunchesPanel title)
  | _ =>
      rocket_map <- load_rocket_map net ;;
      pad_map <- load_launchpad_map net ;;
      rows <- table_rows rocket_map pad_map 1 launches ;;
      _ <- print_table title rows ;;
      Ok (LaunchTable title rows)
  end.

(** ** The detail view *)

Record detail_view : Type := {
  det_name : json;
  det_flight_number : json;
  det_date : json;
  det_rocket : json;
  det_pad : json;
  det_status : string;
  det_details : string;
  det_webcast : json;
  det_article : json;
  det_wiki : json
}.

Definition status_line (success : json) : string :=
  match success with
  | JBool true => "[green]Success[/green]"
  | JBool false => "[red]Failure[/red]"
  | _ => "[yellow]Unknown / upcoming[/yellow]"
  end.

(** [(launch.get("links") or {}).get(k) or "N/A"] *)
Definition link_of (launch : json) (k : string) : result json :=
  links <- py_get launch "links" ;;
  v <- py_get (py_or links (JObj [])) k ;;
  Ok (py_or v (JStr "N/A")).

(** [textwrap.fill(details, width=90)]: the text has to be a string, of
    which [fill] calls the method [expandtabs]. *)
Definition py_fill (details : json) (width : nat) : result string :=
  match details with
  | JStr s => Ok (textwrap_fill s width)
  | _ => Raise AttributeError
  end.

(** [console.print(Panel(...))]: the interpolated values and the wrapped
    description are printed as markup. *)
Definition print_panel (v : detail_view) : result unit :=
  _ <- print_field (det_name v) ;;
  _ <- print_field (det_flight_number v) ;;
  _ <- print_field (det_date v) ;;
  _ <- print_field (det_rocket v) ;;
  _ <- print_field (det_pad v) ;;
  _ <- print_markup (det_details v) ;;
  _ <- print_field (det_webcast v) ;;
  _ <- print_field (det_article v) ;;
  print_field (det_wiki v).

(** [show_launch_details]: the values of the panel it prints, the
    description as [textwrap.fill] wrapped it. *)
Definition show_launch_details (net : network) (launch : json)
  : result detail_view :=
  rocket_map <- load_rocket_map net ;;
  pad_map <- load_launchpad_map net ;;
  n <- py_get launch "name" ;;
  let name := py_or n (JStr "(no name)") in
  d <- py_get launch "date_utc" ;;
  let date := format_datetime d in
  rocket_name <- resolve_reference rocket_map launch "rocket"
                   (JStr "Unknown rocket") ;;
  pad_name <- resolve_reference pad_map launch "launchpad"
                (JStr "Unknown launchpad") ;;
  success <- py_get launch "success" ;;
  dt <- py_get launch "details" ;;
  let details := py_or dt (JStr "No description provided.") in
  flight_number <- py_get launch "flight_number" ;;
  webcast <- link_of launch "webcast" ;;
  article <- link_of launch "article" ;;
  wiki <- link_of launch "wikipedia" ;;
  wrapped <- py_fill details 90 ;;
  let v :=
    {| det_name := name; det_flight_number := flight_number;
       det_date := date; det_rocket := rocket_name; det_pad := pad_name;
       det_status := status_line success; det_details := wrapped;
       det_webcast := webcast; det_article := article; det_wiki := wiki |} in
  _ <- print_panel v ;;
  Ok v.

End Formatting.

(** ** Search *)

(** [v.lower()]: only a str has the method. *)
Definition py_lower (v : json) : result string :=
  match v with
  | JStr s => str_lower s
  | _ => Raise AttributeError
  end.

(** The condition of the comprehension:
    [query_lower in (l.get("name") or "").lower()]. *)
Definition name_matches (query_lower : string) (l : json) : result bool :=
  n <- py_get l "name" ;;
  name_lower <- py_lower (py_or n (JStr "")) ;;
  Ok (contains query_lower name_lower).

(** How a call of [search_launches] ends, up to the point where the
    matches are handed to the table view: nothing was loaded; the answer
    to the prompt was blank and the function returned at once; no launch
    matched, and the message that says so, which quotes the query, was
    printed; or the matches were selected. *)
Inductive search_outcome : Type :=
| NothingLoaded
| NoSearch
| NoMatches (query : string)
| Matches (query : string) (matches : list json).

Definition search_launches (launches : list json) (answer : string)
  : result search_outcome :=
  match launches with
  | [] => Ok NothingLoaded
  | _ =>
      query <- str_strip answer ;;
      if String.eqb query "" then Ok NoSearch
      else
        query_lower <- str_lower query ;;
        matches <- filterM (name_matches query_lower) launches ;;
        match matches with
        | [] => _ <- print_markup query ;; Ok (NoMatches query)
        | _ => Ok (Matches query matches)
        end
  end.


Arguments format_datetime {datetime} fromisoformat strftime iso_str.
Arguments table_row_of {datetime} fromisoformat strftime
  rocket_map pad_map idx launch.
Arguments table_rows {datetime} fromisoformat strftime
  rocket_map pad_map idx launches.
Arguments show_launch_table {datetime} fromisoformat strftime
  net title launches.
Arguments show_launch_details {datetime} fromisoformat strftime
  textwrap_fill net launch.
(** ** The stable insertion sort, on comparisons that cannot raise *)

Fixpoint insert_by {A K : Type} (key : A -> K) (ltb : K -> K -> bool)
  (x : A) (sorted : list A) : list A :=
  match sorted with
  | [] => [x]
  | y :: rest =>
      if ltb (key y) (key x) then y :: insert_by key ltb x rest
      else x :: y :: rest
  end.

Fixpoint sort_by {A K : Type} (key : A -> K) (ltb : K -> K -> bool)
  (l : list A) : list A :=
  match l with
  | [] => []
  | x :: xs => insert_by key ltb x (sort_by key ltb xs)
  end.

(** [a] may stand before [b]: [b] is not less than [a]. *)
Definition ordered {A K : Type} (key : A -> K) (ltb : K -> K -> bool)
  (a b : A) : Prop :=
  ltb (key b) (key a) = false.

(** An item paired with its string key, as the sort holds it. *)
Definition keyed_by (k : json -> string) (x : json) : json * json :=
  (JStr (k x), x).

(** ** Launch records and their timestamp key *)

(** The [date_utc] field of a record is absent, null or a string. *)
Definition date_ok (x : json) : bool :=
  match x with
  | JObj fields =>
      match dict_get fields "date_utc" with
      | JNull | JStr _ => true
      | _ => false
      end
  | _ => false
  end.

(** The key such a record sorts by, as a string. *)
Definition date_text (x : json) : string :=
  match x with
  | JObj fields =>
      match dict_get fields "date_utc" with
      | JStr s => s
      | _ => ""
      end
  | _ => ""
  end.

(** The timestamp of [a] is no later than that of [b]: the two
    timestamp strings are in lexicographic order. *)
Definition date_le (a b : json) : Prop :=
  String.leb (date_text a) (date_text b) = true.

(** The timestamp string of the record is [k]. *)
Definition dated (k : string) (x : json) : bool :=
  String.eqb (date_text x) k.

(** The [date_utc] field of a record is a number other than zero. *)
Definition date_numeric (x : json) : bool :=
  match x with
  | JObj fields =>
      match dict_get fields "date_utc" with
      | JNum n => negb (Z.eqb n 0)
      | _ => false
      end
  | _ => false
  end.

(** The value is a number. *)
Definition is_num (v : json) : bool :=
  match v with
  | JNum _ => true
  | _ => false
  end.

(** The sort key of a record, seen as a value: its [date_utc], or the
    empty string in place of a false one. *)
Definition date_value (x : json) : json :=
  match x with
  | JObj fields => py_or (dict_get fields "date_utc") (JStr "")
  | _ => JNull
  end.


(** What the loader sorts: the fetched payload, or [[]] in its place. *)
Definition fetched (net : network) (path : string) (l : list json) : Prop :=
  py_or (fetch_json net path) (JArr []) = JArr l.

(** The descending sort: reverse, sort, reverse. *)
Definition sort_desc (l : list json) : list json :=
  rev (sort_by date_text String.ltb (rev l)).

(** ** Sample data *)

Definition launch_a : json :=
  JObj [("name", JStr "FalconSat");
        ("date_utc", JStr "2006-03-24T22:30:00.000Z");
        ("rocket", JStr "r1"); ("launchpad", JStr "p1")].

Definition launch_b : json :=
  JObj [("name", JStr "CRS-20"); ("date_utc", JStr "2020-03-07T04:50:31.000Z");
        ("rocket", JStr "r9"); ("launchpad", JStr "p2")].

Definition launch_undated : json :=
  JObj [("name", JStr "Starlink TBD"); ("date_utc", JNull)].

(** A network on which every request is answered 200 with [payload]. *)
Definition serving (payload : json) : network :=
  fun _ => Response 200 (Some payload).

(** A network on which every connection fails. *)
Definition unreachable : network := fun _ => ConnectionFailed.

(** ** Reference entries and references *)

(** The field [k] of an entry holds the text [s]; an absent or null
    field holds no text. *)
Definition text_field (fields : list (string * json)) (k s : string) : Prop :=
  dict_get fields k = JStr s \/ (dict_get fields k = JNull /\ s = "").

(** The launchpad label in the specification's words: the name, then the
    non-empty ones of locality and region, comma-joined in parentheses;
    no parentheses when both are empty. *)
Definition pad_label_spec (name locality region : string) : string :=
  match locality, region with
  | EmptyString, EmptyString => name
  | EmptyString, _ => name +:+ " (" +:+ region +:+ ")"
  | _, EmptyString => name +:+ " (" +:+ locality +:+ ")"
  | _, _ => name +:+ " (" +:+ locality +:+ ", " +:+ region +:+ ")"
  end.

(** A reference a dict can be asked for: absent, null, or a scalar. *)
Definition ref_ok (v : json) : bool :=
  match v with
  | JArr _ | JObj _ => false
  | _ => true
  end.

(** A launch record whose reference [field] is such. *)
Definition ref_field_ok (launch : json) (field : string) : bool :=
  match launch with
  | JObj fields => ref_ok (dict_get fields field)
  | _ => false
  end.

(** A launch record whose rocket and launchpad references are such. *)
Definition refs_ok (launch : json) : bool :=
  match launch with
  | JObj fields =>
      ref_ok (dict_get fields "rocket") && ref_ok (dict_get fields "launchpad")
  | _ => false
  end.

(** [shown] is what looking [ref] up in [m] displays: the mapped value,
    or [fallback] when [m] has no entry for it. *)
Definition resolves (m : gmap pykey json) (ref fallback shown : json) : Prop :=
  exists k, hash_key ref = Ok k /\
            (m !! k = Some shown \/ (m !! k = None /\ shown = fallback)).


(** ** Search *)









(** The codes of the ASCII white space characters: tab, line feed,
    vertical tab, form feed, carriage return, the four separators and
    the space. *)
Definition white_space : list nat :=
  [9; 10; 11; 12; 13; 28; 29; 30; 31; 32]%nat.

(** A white space character. *)
Definition is_white (c : ascii) : bool :=
  existsb (Nat.eqb (nat_of_ascii c)) white_space.

(** Every character of the answer is white space. *)
Definition blank (s : string) : bool :=
  forallb is_white (list_ascii_of_string s).

(** [query] is [answer] without the white space at its two ends: what
    is left out is white space, and [query] neither starts nor ends with
    a white space character. *)
Definition stripped_of (answer query : string) : Prop :=
  exists pre post,
    answer = pre +:+ query +:+ post /\
    blank pre = true /\ blank post = true /\
    (forall c rest, query = String c rest -> is_white c = false) /\
    (forall init c, query = init +:+ String c "" -> is_white c = false).

(** ** Sample library functions

    A parser and a formatter that know one timestamp, on which they
    agree with [datetime.fromisoformat] and [strftime]; the parser
    rejects every other string, as [datetime.fromisoformat] rejects the
    other strings of the examples.  A [fill] for the texts of the
    examples: one line of fewer than 90 characters, with no tab and no
    white space at its ends, which [textwrap.fill] returns as it is. *)

Definition sample_fromisoformat (s : string) : option unit :=
  if String.eqb s "2024-03-01T12:00:00+00:00" then Some tt else None.

Definition sample_strftime (dt : unit) (format : string) : option string :=
  if String.eqb format "%Y-%m-%d %H:%M UTC" then Some "2024-03-01 12:00 UTC"
  else None.

Definition sample_fill (text : string) (width : nat) : string := text.

(** ** More sample data *)

Definition rocket_f9 : json :=
  JObj [("id", JStr "r9"); ("name", JStr "Falcon 9")].

Definition pad_without_id : json := JObj [("name", JStr "LC-39A")].

Definition pad_region_only_fields : list (string * json) :=
  [("id", JStr "p2"); ("name", JStr "KSC LC 39A"); ("locality", JNull);
   ("region", JStr "Florida")].


(** ** Prompts

    An interactive function is given the answers that the successive
    calls of [Prompt.ask] return.  It ends with a value, the answers it
    left and the messages it printed, or it is still waiting at a prompt
    when the answers run out. *)

Inductive interaction (A : Type) : Type :=
| Done (value : A) (rest : list string) (printed : list string)
| Blocked (printed : list string).

Arguments Done {A} value rest printed.
Arguments Blocked {A} printed.

Definition add_printed {A : Type} (msg : string) (i : interaction A)
  : interaction A :=
  match i with
  | Done value rest printed => Done value rest (msg :: printed)
  | Blocked printed => Blocked (msg :: printed)
  end.

Definition is_digit (c : ascii) : bool :=
  (48 <=? nat_of_ascii c)%nat && (nat_of_ascii c <=? 57)%nat.

(** [s.isdigit()]: false on the empty string and on a string holding an
    ASCII character that is no digit, true on a string of ASCII digits.
    Which characters beyond ASCII count as digits is not part of the
    embedding. *)
Definition py_isdigit (s : string) : result bool :=
  match list_ascii_of_string s with
  | [] => Ok false
  | cs =>
      if existsb (fun c => is_ascii c && negb (is_digit c)) cs then Ok false
      else if forallb is_digit cs then Ok true
      else Raise OutsideModel
  end.

(** [int(s)] on a string of ASCII digits, the only strings the program
    converts.  A conversion of more than 4300 digits, which recent
    CPython refuses, is not part of the embedding. *)
Definition py_int (s : string) : result Z :=
  if (4300 <? String.length s)%nat then Raise OutsideModel
  else
    match NilEmpty.uint_of_string s with
    | Some d => Ok (Z.of_uint d)
    | None => Raise OutsideModel
    end.

(** [str(n)] of a length. *)
Definition str_of_nat (n : nat) : string :=
  NilZero.string_of_int (Z.to_int (Z.of_nat n)).

Definition invalid_number_message : string :=
  "[red]Please enter a valid number.[/red]".

Definition out_of_range_message (n : nat) : string :=
  "[red]Number must be between 1 and " +:+ str_of_nat n +:+ ".[/red]".

(** The [while True] loop of [choose_launch]: one answer is read per
    turn.  [launches[idx - 1]] is read only when [idx] is in range.  The
    value [None] is [JNull]. *)
Fixpoint choose_loop (launches : list json) (answers : list string)
  : result (interaction json) :=
  match answers with
  | [] => Ok (Blocked [])
  | choice :: rest =>
      stripped <- str_strip choice ;;
      if String.eqb stripped "" then Ok (Done JNull rest [])
      else
        digits <- py_isdigit choice ;;
        if negb digits
        then (i <- choose_loop launches rest ;;
              Ok (add_printed invalid_number_message i))
        else
          idx <- py_int choice ;;
          if Z.leb 1 idx && Z.leb idx (Z.of_nat (List.length launches))
          then Ok (Done (nth (Z.to_nat (idx - 1)) launches JNull) rest [])
          else (i <- choose_loop launches rest ;;
                Ok (add_printed
                      (out_of_range_message (List.length launches)) i))
  end.

Definition choose_launch (launches : list json) (answers : list string)
  : result (interaction json) :=
  match launches with
  | [] => Ok (Done JNull answers [])
  | _ => choose_loop launches answers
  end.

(** ** The session

    How far a part of the session got: it finished, having made the
    fetching calls counted by [clock] and left the answers [rest], or it
    is waiting at a prompt. *)

Inductive progress (A : Type) : Type :=
| Finished (value : A) (clock : nat) (rest : list string)
| Awaiting.

Arguments Finished {A} value clock rest.
Arguments Awaiting {A}.

(** The two caches of [main_menu]. *)
Record menu_state : Type := {
  past_cache : list json;
  upcoming_cache : list json
}.

(** How a run of [main_menu] stands when the answers are used up or the
    menu has returned. *)
Inductive session_end : Type :=
| Exited (st : menu_state)
| AtPrompt (st : menu_state).

Definition search_title (query : string) : string :=
  "Search results for '" +:+ query +:+ "'".

Section Session.

Variable datetime : Type.
Variable fromisoformat : string -> option datetime.
Variable strftime : datetime -> string -> option string.
Variable textwrap_fill : string -> nat -> string.

(** The network as the [n]-th call of a fetching function finds it. *)
Variable net_of : nat -> network.

(** Show the table, let the user choose, show the details of a choice
    that is true: the tail of [search_launches] and of the first two
    branches of [main_menu]. *)
Definition browse (title : string) (launches : list json) (clock : nat)
  (answers : list string) : result (progress unit) :=
  _ <- show_launch_table fromisoformat strftime (net_of clock) title launches ;;
  c <- choose_launch launches answers ;;
  match c with
  | Blocked _ => Ok Awaiting
  | Done chosen rest _ =>
      if truthy chosen
      then (_ <- show_launch_details fromisoformat strftime textwrap_fill
                   (net_of (S clock)) chosen ;;
            Ok (Finished tt (S (S clock)) rest))
      else Ok (Finished tt (S clock) rest)
  end.

(** [search_launches] from its prompt to its end.  Nothing is asked when
    no launch is loaded. *)
Definition search_session (launches : list json) (clock : nat)
  (answers : list string) : result (progress unit) :=
  match launches with
  | [] => Ok (Finished tt clock answers)
  | _ =>
      match answers with
      | [] => Ok Awaiting
      | answer :: rest =>
          o <- search_launches launches answer ;;
          match o with
          | Matches query matches =>
              browse (search_title query) matches clock rest
          | _ => Ok (Finished tt clock rest)
          end
      end
  end.

(** One turn of the loop of [main_menu] on the choice read at its
    prompt: the caches after the turn, and whether the menu returned
    ([true]) or loops ([false]). *)
Definition menu_step (st : menu_state) (clock : nat) (choice : string)
  (rest : list string) : result (menu_state * progress bool) :=
  let continue (st' : menu_state) (p : progress unit) :=
    match p with
    | Finished _ clock' rest' => (st', Finished false clock' rest')
    | Awaiting => (st', Awaiting)
    end in
  if String.eqb choice "0" then Ok (st, Finished true clock rest)
  else if String.eqb choice "1" then
    upcoming <- get_upcoming_launches (net_of clock) ;;
    let st' := {| past_cache := past_cache st; upcoming_cache := upcoming |} in
    p <- browse "Upcoming launches" upcoming (S clock) rest ;;
    Ok (continue st' p)
  else if String.eqb choice "2" then
    past <- get_past_launches (net_of clock) 20 ;;
    let st' := {| past_cache := past; upcoming_cache := upcoming_cache st |} in
    p <- browse "Recent launches" past (S clock) rest ;;
    Ok (continue st' p)
  else if String.eqb choice "3" then
    match past_cache st with
    | [] =>
        past <- get_past_launches (net_of clock) 50 ;;
        let st' :=
          {| past_cache := past; upcoming_cache := upcoming_cache st |} in
        p <- search_session past (S clock) rest ;;
        Ok (continue st' p)
    | _ =>
        p <- search_session (past_cache st) clock rest ;;
        Ok (continue st p)
    end
  else if String.eqb choice "4" then
    past <- get_past_launches (net_of clock) 50 ;;
    upcoming <- get_upcoming_launches (net_of (S clock)) ;;
    Ok ({| past_cache := past; upcoming_cache := upcoming |},
        Finished false (S (S clock)) rest)
  else Ok (st, Finished false clock rest).

(** The loop: every turn reads its choice, so the number of answers
    bounds the number of turns. *)
Fixpoint main_menu_loop (turns : nat) (st : menu_state) (clock : nat)
  (answers : list string) : result session_end :=
  match turns, answers with
  | S turns', choice :: rest =>
      r <- menu_step st clock choice rest ;;
      match r with
      | (st', Finished true _ _) => Ok (Exited st')
      | (st', Finished false clock' rest') =>
          main_menu_loop turns' st' clock' rest'
      | (st', Awaiting) => Ok (AtPrompt st')
      end
  | _, _ => Ok (AtPrompt st)
  end.

Definition main_menu (answers : list string) : result session_end :=
  main_menu_loop (List.length answers)
    {| past_cache := []; upcoming_cache := [] |} 0 answers.

End Session.

Arguments browse {datetime} fromisoformat strftime textwrap_fill net_of
  title launches clock answers.
Arguments search_session {datetime} fromisoformat strftime textwrap_fill
  net_of launches clock answers.
Arguments menu_step {datetime} fromisoformat strftime textwrap_fill net_of
  st clock choice rest.
Arguments main_menu_loop {datetime} fromisoformat strftime textwrap_fill
  net_of turns st clock answers.
Arguments main_menu {datetime} fromisoformat strftime textwrap_fill net_of
  answers.

(** ** Vocabulary for the loaders, the prompts and the session *)

(** The entry [k |-> v] is what the rocket loader stores for some fetched
    rocket: the rocket has a true id that hashes to [k], and [v] is its
    name or the placeholder. *)
Definition rocket_entry (rockets : list json) (k : pykey) (v : json) : Prop :=
  exists r _id n,
    In r rockets /\ py_get r "id" = Ok _id /\ truthy _id = true /\
    hash_key _id = Ok k /\ py_get r "name" = Ok n /\
    v = py_or n (JStr "Unknown rocket").

(** The launches a search selected: none unless it ended in a table. *)
Definition selected (o : search_outcome) : list json :=
  match o with
  | Matches _ matches => matches
  | _ => []
  end.

(** The caches a run of the menu ended with. *)
Definition state_of (e : session_end) : menu_state :=
  match e with
  | Exited st => st
  | AtPrompt st => st
  end.

(** An answer typed with ASCII characters only, short enough for [int]. *)
Definition plain_answer (s : string) : bool :=
  forallb is_ascii (list_ascii_of_string s) &&
  (String.length s <=? 4300)%nat.

(** A turn of the menu seen without the caches. *)
Definition turn_of {A B : Type} (b : B) (p : progress A) : progress B :=
  match p with
  | Finished _ clock rest => Finished b clock rest
  | Awaiting => Awaiting
  end.

(** Why an answer is turned down: it is not blank, and it is no number or
    a number out of range. *)
Definition rejected (launches : list json) (a : string) : Prop :=
  (exists stripped, str_strip a = Ok stripped /\ stripped <> "") /\
  (py_isdigit a = Ok false \/
   exists idx, py_int a = Ok idx /\
               ~ (1 <= idx <= Z.of_nat (List.length launches))).

(** Two runs of the menu end alike: both returned, both wait at a prompt
    or both raised the same exception, with the same past cache. *)
Definition ends_alike (r1 r2 : result session_end) : Prop :=
  match r1, r2 with
  | Ok (Exited s1), Ok (Exited s2) => past_cache s1 = past_cache s2
  | Ok (AtPrompt s1), Ok (AtPrompt s2) => past_cache s1 = past_cache s2
  | Raise e1, Raise e2 => e1 = e2
  | _, _ => False
  end.


(** * Properties *)

(** ** The error monad *)

Lemma bind_Ok {A B : Type} (m : result A) (k : A -> result B) (b : B) :
  bind m k = Ok b -> exists a, m = Ok a /\ k a = Ok b.
Proof. destruct m as [a|e]; simpl; [eauto | discriminate]. Qed.

Lemma bind_ret {A B : Type} (a : A) (k : A -> result B) : bind (Ok a) k = k a.
Proof. reflexivity. Qed.

Lemma mapM_pure {A B : Type} (f : A -> result B) (g : A -> B) (l : list A) :
  Forall (fun x => f x = Ok (g x)) l -> mapM f l = Ok (map g l).
Proof.
  induction 1 as [|x xs Hx _ IH]; simpl; [reflexivity|].
  now rewrite Hx, IH.
Qed.


(** ** Lexicographic order on strings *)

Lemma ascii_compare_refl (a : ascii) : Ascii.compare a a = Eq.
Proof. unfold Ascii.compare. apply N.compare_refl. Qed.

Lemma string_compare_refl (s : string) : String.compare s s = Eq.
Proof.
  induction s as [|a s IH]; simpl; [reflexivity|].
  now rewrite ascii_compare_refl.
Qed.

Lemma string_compare_lt_trans (a b c : string) :
  String.compare a b = Lt -> String.compare b c = Lt ->
  String.compare a c = Lt.
Proof.
  revert b c.
  induction a as [|x a IH]; intros [|y b] [|z c]; simpl;
    try discriminate; try reflexivity.
  unfold Ascii.compare.
  destruct (N.compare_spec (N_of_ascii x) (N_of_ascii y)) as [Hxy|Hxy|Hxy];
    try discriminate;
    destruct (N.compare_spec (N_of_ascii y) (N_of_ascii z)) as [Hyz|Hyz|Hyz];
    try discriminate; intros H1 H2.
  - rewrite Hxy, Hyz, N.compare_refl. eauto.
  - rewrite Hxy. now apply N.compare_lt_iff in Hyz as ->.
  - rewrite <- Hyz. now apply N.compare_lt_iff in Hxy as ->.
  - assert (Hxz : (N_of_ascii x < N_of_ascii z)%N) by lia.
    now apply N.compare_lt_iff in Hxz as ->.
Qed.

Lemma string_ltb_irrefl (s : string) : String.ltb s s = false.
Proof. unfold String.ltb. now rewrite string_compare_refl. Qed.

Lemma string_ltb_asym (a b : string) :
  String.ltb a b = true -> String.ltb b a = false.
Proof.
  unfold String.ltb. rewrite (String.compare_antisym b a).
  now destruct (String.compare a b).
Qed.

(** [a <= b] and [b <= c] give [a <= c], with [x <= y] read as "not
    [y < x]", the only test the sort performs. *)
Lemma string_ltb_false_trans (a b c : string) :
  String.ltb b a = false -> String.ltb c b = false -> String.ltb c a = false.
Proof.
  unfold String.ltb. intros Hba Hcb.
  destruct (String.compare c a) eqn:Hca; try reflexivity.
  destruct (String.compare b a) eqn:Hba'; try discriminate;
    destruct (String.compare c b) eqn:Hcb'; try discriminate.
  - apply String.compare_eq_iff in Hba', Hcb'. subst.
    now rewrite string_compare_refl in Hca.
  - apply String.compare_eq_iff in Hba'. subst. congruence.
  - apply String.compare_eq_iff in Hcb'. subst. congruence.
  - assert (Hac : String.compare a c = Gt).
    { rewrite String.compare_antisym, Hca. reflexivity. }
    assert (Hbc : String.compare b c = Lt).
    { rewrite String.compare_antisym, Hcb'. reflexivity. }
    assert (Hab : String.compare a b = Lt).
    { rewrite String.compare_antisym, Hba'. reflexivity. }
    pose proof (string_compare_lt_trans _ _ _ Hab Hbc). congruence.
Qed.

Lemma string_ltb_empty_r (s : string) : String.ltb s "" = false.
Proof. now destruct s. Qed.

Lemma string_ltb_empty_l (s : string) : s <> "" -> String.ltb "" s = true.
Proof. now destruct s. Qed.

(** ** The stable insertion sort *)

Section StableSort.

Variables (A K : Type) (key : A -> K) (ltb : K -> K -> bool).


Lemma insert_by_perm (x : A) (l : list A) :
  Permutation (insert_by key ltb x l) (x :: l).
Proof.
  induction l as [|y l IH]; simpl; [reflexivity|].
  destruct (ltb (key y) (key x)); [|reflexivity].
  rewrite IH. apply perm_swap.
Qed.

Lemma sort_by_perm (l : list A) : Permutation (sort_by key ltb l) l.
Proof.
  induction l as [|x l IH]; simpl; [reflexivity|].
  rewrite insert_by_perm. now constructor.
Qed.

Lemma sort_by_length (l : list A) :
  List.length (sort_by key ltb l) = List.length l.
Proof. apply Permutation_length, sort_by_perm. Qed.

(** A class of keys among which [<] never holds keeps its order. *)
Lemma insert_by_filter (p : A -> bool) (x : A) (l : list A) :
  (forall y, In y l -> p y = true -> p x = true ->
             ltb (key y) (key x) = false) ->
  List.filter p (insert_by key ltb x l) = List.filter p (x :: l).
Proof.
  induction l as [|y l IH]; intros Hcls; simpl; [reflexivity|].
  destruct (ltb (key y) (key x)) eqn:Hlt; simpl; [|reflexivity].
  rewrite IH by (intros; apply Hcls; simpl; auto).
  simpl. destruct (p x) eqn:Hx, (p y) eqn:Hy; try reflexivity.
  rewrite Hcls in Hlt; simpl; auto. discriminate.
Qed.

Lemma sort_by_filter (p : A -> bool) (l : list A) :
  (forall x y, p x = true -> p y = true -> ltb (key y) (key x) = false) ->
  List.filter p (sort_by key ltb l) = List.filter p l.
Proof.
  intros Hcls. induction l as [|x l IH]; simpl; [reflexivity|].
  rewrite insert_by_filter by (intros; now apply Hcls).
  simpl. now rewrite IH.
Qed.

Hypothesis ltb_asym : forall a b, ltb a b = true -> ltb b a = false.
Hypothesis ltb_false_trans :
  forall a b c, ltb b a = false -> ltb c b = false -> ltb c a = false.

Lemma insert_by_sorted (x : A) (l : list A) :
  StronglySorted (ordered key ltb) l ->
  StronglySorted (ordered key ltb) (insert_by key ltb x l).
Proof.
  induction 1 as [|y l Hl IH Hy]; simpl.
  - repeat constructor.
  - destruct (ltb (key y) (key x)) eqn:Hlt.
    + constructor; [exact IH|].
      apply (Permutation_Forall (Permutation_sym (insert_by_perm x l))).
      constructor; [|exact Hy]. now apply ltb_asym.
    + constructor; [now constructor|].
      constructor; [exact Hlt|].
      eapply List.Forall_impl; [|exact Hy].
      intros z Hz. unfold ordered in *. eauto.
Qed.

Lemma sort_by_sorted (l : list A) :
  StronglySorted (ordered key ltb) (sort_by key ltb l).
Proof.
  induction l as [|x l IH]; simpl; [constructor|].
  now apply insert_by_sorted.
Qed.

(** Sorting a list that is in order already changes nothing. *)
Lemma sort_by_fixpoint (l : list A) :
  StronglySorted (ordered key ltb) l -> sort_by key ltb l = l.
Proof.
  induction 1 as [|x l Hl IH Hx]; simpl; [reflexivity|].
  rewrite IH. destruct Hx as [|y l' Hy _]; simpl; [reflexivity|].
  now rewrite Hy.
Qed.

Lemma sort_by_idempotent (l : list A) :
  sort_by key ltb (sort_by key ltb l) = sort_by key ltb l.
Proof. apply sort_by_fixpoint, sort_by_sorted. Qed.

End StableSort.

(** ** Facts on sorted lists *)

Lemma StronglySorted_app_inv {A : Type} (R : A -> A -> Prop) (l1 l2 : list A) :
  StronglySorted R (l1 ++ l2) ->
  StronglySorted R l1 /\ StronglySorted R l2 /\
  (forall x y, In x l1 -> In y l2 -> R x y).
Proof.
  induction l1 as [|a l1 IH]; simpl; intros H.
  - repeat split; [constructor | exact H | intros ? ? []].
  - apply StronglySorted_inv in H as [Hs Ha].
    destruct (IH Hs) as (H1 & H2 & H3).
    rewrite Forall_app in Ha. destruct Ha as [Ha1 Ha2].
    repeat split; [now constructor | exact H2 |].
    intros x y [<-|Hx] Hy; [|now apply H3].
    rewrite List.Forall_forall in Ha2. now apply Ha2.
Qed.

Lemma StronglySorted_app {A : Type} (R : A -> A -> Prop) (l1 l2 : list A) :
  StronglySorted R l1 -> StronglySorted R l2 ->
  (forall x y, In x l1 -> In y l2 -> R x y) ->
  StronglySorted R (l1 ++ l2).
Proof.
  induction 1 as [|a l1 Hs IH Ha]; simpl; intros H2 Hx; [exact H2|].
  constructor.
  - apply IH; [exact H2 | intros; apply Hx; simpl; auto].
  - rewrite Forall_app. split; [exact Ha|].
    rewrite List.Forall_forall. intros y Hy. apply Hx; simpl; auto.
Qed.

Lemma StronglySorted_rev {A : Type} (R : A -> A -> Prop) (l : list A) :
  StronglySorted R l -> StronglySorted (fun a b => R b a) (rev l).
Proof.
  induction 1 as [|x l Hl IH Hx]; simpl; [constructor|].
  apply StronglySorted_app; [exact IH | repeat constructor |].
  intros a b Ha [<-|[]]. rewrite List.Forall_forall in Hx.
  apply Hx. now apply in_rev.
Qed.

Lemma StronglySorted_lookup {A : Type} (R : A -> A -> Prop) (l : list A)
  (i j : nat) (a b : A) :
  StronglySorted R l -> l !! i = Some a -> l !! j = Some b -> (i < j)%nat ->
  R a b.
Proof.
  intros Hs. revert i j.
  induction Hs as [|x l Hl IH Hx]; intros i j Hi Hj Hlt.
  - discriminate.
  - destruct j as [|j]; [lia|]. destruct i as [|i]; simpl in *.
    + injection Hi as <-. rewrite List.Forall_forall in Hx.
      apply Hx. apply list_elem_of_In. eapply list_elem_of_lookup_2, Hj.
    + apply (IH i j); [assumption..|lia].
Qed.

Lemma py_or_str (s : string) : py_or (JStr s) (JStr "") = JStr s.
Proof.
  unfold py_or. simpl. destruct (String.eqb_spec s ""); simpl; congruence.
Qed.

Lemma date_key_ok (x : json) :
  date_ok x = true -> date_key x = Ok (JStr (date_text x)).
Proof.
  destruct x as [| | | | |fields]; try discriminate.
  unfold date_ok, date_key, date_text. simpl.
  destruct (dict_get fields "date_utc"); try discriminate; intros _.
  - reflexivity.
  - now rewrite py_or_str.
Qed.

Lemma string_leb_ltb (a b : string) :
  String.leb a b = true <-> String.ltb b a = false.
Proof.
  unfold String.leb, String.ltb. rewrite (String.compare_antisym b a).
  destruct (String.compare a b); simpl; split; congruence.
Qed.



(** ** The fallible sort agrees with the stable sort on string keys *)

Section StringKeys.

Variable k : json -> string.

Lemma insert_keyed_strings (x : json) (s : list json) :
  insert_keyed (keyed_by k x) (map (keyed_by k) s) =
  Ok (map (keyed_by k) (insert_by k String.ltb x s)).
Proof.
  induction s as [|y s IH]; simpl; [reflexivity|].
  destruct (String.ltb (k y) (k x)); simpl; [|reflexivity].
  now rewrite IH.
Qed.

Lemma sort_keyed_strings (l : list json) :
  sort_keyed (map (keyed_by k) l) =
  Ok (map (keyed_by k) (sort_by k String.ltb l)).
Proof.
  induction l as [|x l IH]; simpl; [reflexivity|].
  rewrite IH. simpl. apply insert_keyed_strings.
Qed.

Lemma list_sort_strings (key : json -> result json) (reverse : bool)
  (l : list json) :
  Forall (fun x => key x = Ok (JStr (k x))) l ->
  list_sort key reverse l =
  Ok (if reverse then rev (sort_by k String.ltb (rev l))
      else sort_by k String.ltb l).
Proof.
  intros Hl. unfold list_sort.
  rewrite (mapM_pure _ (keyed_by k)).
  2:{ eapply List.Forall_impl; [|exact Hl]. intros x Hx. simpl.
      now rewrite Hx. }
  simpl. destruct reverse.
  - rewrite <- map_rev, sort_keyed_strings. simpl.
    rewrite <- map_rev, map_map. simpl. now rewrite map_id.
  - rewrite sort_keyed_strings. simpl.
    rewrite map_map. simpl. now rewrite map_id.
Qed.

End StringKeys.

Lemma list_sort_dates (reverse : bool) (l : list json) :
  forallb date_ok l = true ->
  list_sort date_key reverse l =
  Ok (if reverse then rev (sort_by date_text String.ltb (rev l))
      else sort_by date_text String.ltb l).
Proof.
  intros Hl. apply list_sort_strings.
  rewrite List.Forall_forall. intros x Hx. apply date_key_ok.
  rewrite forallb_forall in Hl. now apply Hl.
Qed.

Lemma get_upcoming_launches_eq (net : network) (l : list json) :
  fetched net "/launches/upcoming" l -> forallb date_ok l = true ->
  get_upcoming_launches net = Ok (sort_by date_text String.ltb l).
Proof.
  intros Hf Hl. unfold get_upcoming_launches. rewrite Hf. simpl.
  now rewrite list_sort_dates.
Qed.

Lemma get_past_launches_eq (net : network) (limit : Z) (l : list json) :
  fetched net "/launches/past" l -> forallb date_ok l = true ->
  get_past_launches net limit =
  Ok (slice_to limit (rev (sort_by date_text String.ltb (rev l)))).
Proof.
  intros Hf Hl. unfold get_past_launches. rewrite Hf. simpl.
  now rewrite list_sort_dates.
Qed.

Lemma forallb_perm {A : Type} (f : A -> bool) (l l' : list A) :
  Permutation l l' -> forallb f l = true -> forallb f l' = true.
Proof.
  intros Hp. rewrite !forallb_forall. intros H x Hx. apply H.
  now apply (Permutation_in _ (Permutation_sym Hp)).
Qed.

Lemma StronglySorted_impl_in {A : Type} (R R' : A -> A -> Prop) (l : list A) :
  (forall a b, In a l -> In b l -> R a b -> R' a b) ->
  StronglySorted R l -> StronglySorted R' l.
Proof.
  intros Himp Hs. induction Hs as [|x l Hs IH Hx]; [constructor|].
  constructor.
  - apply IH. intros a b Ha Hb. apply Himp; simpl; auto.
  - rewrite List.Forall_forall in *. intros y Hy.
    apply Himp; simpl; auto.
Qed.

Lemma sort_dates_ok (l : list json) :
  forallb date_ok l = true ->
  forallb date_ok (sort_by date_text String.ltb l) = true.
Proof. apply forallb_perm, Permutation_sym, sort_by_perm. Qed.


Lemma sort_desc_perm (l : list json) : Permutation (sort_desc l) l.
Proof.
  unfold sort_desc. rewrite <- Permutation_rev, sort_by_perm.
  symmetry. apply Permutation_rev.
Qed.



(** ** The order of the timestamp strings *)

Lemma date_le_ordered (a b : json) :
  date_le a b <-> ordered date_text String.ltb a b.
Proof. apply string_leb_ltb. Qed.

Lemma sort_dates_date_le (l : list json) :
  StronglySorted date_le (sort_by date_text String.ltb l).
Proof.
  apply StronglySorted_impl_in with (R := ordered date_text String.ltb).
  - intros a b _ _. apply date_le_ordered.
  - apply sort_by_sorted.
    + apply string_ltb_asym.
    + apply string_ltb_false_trans.
Qed.

Lemma sort_dates_dated (k : string) (l : list json) :
  List.filter (dated k) (sort_by date_text String.ltb l) =
  List.filter (dated k) l.
Proof.
  apply sort_by_filter. intros x y Hx Hy.
  apply String.eqb_eq in Hx, Hy. rewrite Hx, Hy.
  apply string_ltb_irrefl.
Qed.

Lemma sort_desc_date_le (l : list json) :
  StronglySorted (fun a b => date_le b a) (sort_desc l).
Proof. apply StronglySorted_rev, sort_dates_date_le. Qed.

Lemma date_text_null (a : json) :
  py_get a "date_utc" = Ok JNull -> date_text a = "".
Proof.
  destruct a; try discriminate. simpl. intros [= H]. now rewrite H.
Qed.

Lemma date_text_str (a : json) (s : string) :
  py_get a "date_utc" = Ok (JStr s) -> date_text a = s.
Proof.
  destruct a; try discriminate. simpl. intros [= H]. now rewrite H.
Qed.

(** ** Launch-list loaders *)

(** C4: the upcoming loader returns the whole fetched collection, in
    ascending lexicographic order of the timestamp strings (the empty
    string standing for a missing timestamp), records with the same
    timestamp in their fetched order, and every record without a
    timestamp before every record that has one; the sort key of a record
    without a timestamp is the empty string. *)
Theorem upcoming_sorted_stable_missing_first (net : network) (l : list json) :
  fetched net "/launches/upcoming" l ->
  forallb date_ok l = true ->
  exists res,
    get_upcoming_launches net = Ok res /\
    Permutation res l /\
    StronglySorted date_le res /\
    (forall k, List.filter (dated k) res = List.filter (dated k) l) /\
    (forall a, In a l -> py_get a "date_utc" = Ok JNull ->
               date_key a = Ok (JStr "")) /\
    (forall i j a b s,
        res !! i = Some a -> res !! j = Some b ->
        py_get a "date_utc" = Ok JNull ->
        py_get b "date_utc" = Ok (JStr s) -> s <> "" ->
        (i < j)%nat).
Proof.
  intros Hf Hl. exists (sort_by date_text String.ltb l).
  split; [now apply get_upcoming_launches_eq|].
  split; [apply sort_by_perm|].
  split; [apply sort_dates_date_le|].
  split; [intros k; apply sort_dates_dated|].
  split.
  { intros a _ Ha. unfold date_key. now rewrite Ha. }
  intros i j a b s Hi Hj Ha Hb Hs.
  destruct (Nat.lt_trichotomy i j) as [Hlt|[->|Hgt]]; [exact Hlt| |].
  - rewrite Hi in Hj. injection Hj as ->. rewrite Ha in Hb. discriminate.
  - exfalso.
    pose proof (StronglySorted_lookup _ _ _ _ _ _
                  (sort_dates_date_le l) Hj Hi Hgt) as Hle.
    unfold date_le in Hle.
    rewrite (date_text_null a Ha), (date_text_str b s Hb) in Hle.
    apply string_leb_ltb in Hle.
    now rewrite string_ltb_empty_l in Hle.
Qed.

Lemma upcoming_sorted_stable_missing_first_witness :
  fetched (serving (JArr [launch_b; launch_undated; launch_a]))
    "/launches/upcoming" [launch_b; launch_undated; launch_a] /\
  forallb date_ok [launch_b; launch_undated; launch_a] = true /\
  get_upcoming_launches (serving (JArr [launch_b; launch_undated; launch_a]))
    = Ok [launch_undated; launch_a; launch_b] /\
  StronglySorted date_le [launch_undated; launch_a; launch_b].
Proof.
  split; [reflexivity|]. split; [reflexivity|].
  destruct (upcoming_sorted_stable_missing_first
              (serving (JArr [launch_b; launch_undated; launch_a]))
              [launch_b; launch_undated; launch_a] eq_refl eq_refl)
    as (res & Hres & _ & Hsorted & _).
  assert (Hval : get_upcoming_launches
                   (serving (JArr [launch_b; launch_undated; launch_a]))
                 = Ok [launch_undated; launch_a; launch_b]) by reflexivity.
  split; [exact Hval|].
  rewrite Hval in Hres. injection Hres as <-. exact Hsorted.
Defined.

(** C3: for a limit [N >= 0] the past loader returns [min N (number
    fetched)] records, hence at most [N]; they stand in descending
    lexicographic order of their timestamp strings (the empty string
    standing for a missing timestamp), and they are the greatest: the
    returned records and the records left out make up the fetched list,
    and no record left out has a timestamp greater than that of a
    returned record. *)
Theorem past_returns_latest (net : network) (limit : Z) (l : list json) :
  fetched net "/launches/past" l ->
  forallb date_ok l = true ->
  0 <= limit ->
  exists res rest,
    get_past_launches net limit = Ok res /\
    List.length res = Nat.min (Z.to_nat limit) (List.length l) /\
    Z.of_nat (List.length res) <= limit /\
    Permutation (res ++ rest) l /\
    StronglySorted (fun a b => date_le b a) res /\
    (forall x y, In x res -> In y rest -> date_le y x).
Proof.
  intros Hf Hl Hlim.
  exists (firstn (Z.to_nat limit) (sort_desc l)),
         (skipn (Z.to_nat limit) (sort_desc l)).
  assert (Hlen : List.length (sort_desc l) = List.length l)
    by apply Permutation_length, sort_desc_perm.
  pose proof (sort_desc_date_le l) as Hs.
  rewrite <- (firstn_skipn (Z.to_nat limit) (sort_desc l)) in Hs.
  apply StronglySorted_app_inv in Hs as (Hs1 & _ & Hs2).
  split.
  { rewrite (get_past_launches_eq net limit l Hf Hl). unfold slice_to.
    apply Z.leb_le in Hlim. now rewrite Hlim. }
  split; [rewrite length_firstn, Hlen; reflexivity|].
  split; [rewrite length_firstn; lia|].
  split; [rewrite firstn_skipn; apply sort_desc_perm|].
  split; [exact Hs1 | exact Hs2].
Qed.

Lemma past_returns_latest_witness :
  fetched (serving (JArr [launch_a; launch_b; launch_undated]))
    "/launches/past" [launch_a; launch_b; launch_undated] /\
  forallb date_ok [launch_a; launch_b; launch_undated] = true /\
  0 <= 2 /\
  get_past_launches (serving (JArr [launch_a; launch_b; launch_undated])) 2
    = Ok [launch_b; launch_a] /\
  exists rest,
    Permutation ([launch_b; launch_a] ++ rest)
      [launch_a; launch_b; launch_undated] /\
    forall x y, In x [launch_b; launch_a] -> In y rest -> date_le y x.
Proof.
  assert (Hlim : 0 <= 2) by lia.
  split; [reflexivity|]. split; [reflexivity|]. split; [exact Hlim|].
  destruct (past_returns_latest
              (serving (JArr [launch_a; launch_b; launch_undated])) 2
              [launch_a; launch_b; launch_undated] eq_refl eq_refl Hlim)
    as (res & rest & Hres & _ & _ & Hperm & _ & Hrest).
  assert (Hval : get_past_launches
                   (serving (JArr [launch_a; launch_b; launch_undated])) 2
                 = Ok [launch_b; launch_a]) by reflexivity.
  split; [exact Hval|].
  rewrite Hval in Hres. injection Hres as <-.
  exists rest. split; assumption.
Defined.

(** A negative limit is no count: [launches[:limit]] then drops records
    from the end of the sorted list.  No caller passes one. *)
Remark past_negative_limit :
  get_past_launches (serving (JArr [launch_a; launch_b])) (-1)
  = Ok [launch_b].
Proof. reflexivity. Qed.

(** C2, as the code has it: the descending sort leaves the reversed
    ascending list as it is, so the round trip yields the ascending order
    reversed, equal keys included; reversing it gives the ascending list
    back. *)
Theorem sort_round_trip (l : list json) :
  forallb date_ok l = true ->
  exists asc,
    list_sort date_key false l = Ok asc /\
    list_sort date_key true (rev asc) = Ok (rev asc) /\
    rev (rev asc) = asc.
Proof.
  intros Hl. exists (sort_by date_text String.ltb l).
  split; [now apply list_sort_dates|].
  split; [|apply rev_involutive].
  rewrite list_sort_dates.
  - rewrite rev_involutive, sort_by_idempotent; [reflexivity|..].
    + apply string_ltb_asym.
    + apply string_ltb_false_trans.
  - eapply forallb_perm; [apply Permutation_rev|]. now apply sort_dates_ok.
Qed.

Lemma sort_round_trip_witness :
  forallb date_ok [launch_b; launch_a] = true /\
  exists asc,
    list_sort date_key false [launch_b; launch_a] = Ok asc /\
    list_sort date_key true (rev asc) = Ok (rev asc).
Proof.
  split; [reflexivity|].
  destruct (sort_round_trip [launch_b; launch_a] eq_refl)
    as (asc & Hasc & Hdesc & _).
  exists asc. split; assumption.
Defined.

(** C2 as stated fails: on two records with different timestamps the
    descending sort of the reversed ascending list is not the ascending
    list. *)
Lemma sort_round_trip_counterexample :
  exists asc desc,
    list_sort date_key false [launch_a; launch_b] = Ok asc /\
    list_sort date_key true (rev asc) = Ok desc /\
    desc <> asc.
Proof.
  exists [launch_a; launch_b], [launch_b; launch_a].
  split; [reflexivity|]. split; [reflexivity|]. discriminate.
Qed.

(** ** Keys that cannot be compared *)

Lemma py_lt_same_kind (a b : json) :
  (is_str a = true /\ is_str b = true) \/
  (is_num a = true /\ is_num b = true) ->
  exists r, py_lt a b = Ok r.
Proof.
  intros [[Ha Hb]|[Ha Hb]]; destruct a; try discriminate;
    destruct b; try discriminate; simpl; eauto.
Qed.

Lemma py_lt_mixed (a b : json) :
  (is_str a = true /\ is_num b = true) \/
  (is_num a = true /\ is_str b = true) ->
  py_lt a b = Raise TypeError.
Proof.
  intros [[Ha Hb]|[Ha Hb]]; destruct a; try discriminate;
    destruct b; try discriminate; reflexivity.
Qed.

Section OneKind.

Variable kind : json -> bool.
Hypothesis kind_compares :
  forall a b, kind a = true -> kind b = true -> exists r, py_lt a b = Ok r.

Lemma insert_keyed_one_kind (x : json * json) (s : list (json * json)) :
  kind (fst x) = true -> Forall (fun p => kind (fst p) = true) s ->
  exists s', insert_keyed x s = Ok s' /\ Permutation s' (x :: s).
Proof.
  intros Hx Hs. induction Hs as [|y s Hy Hs IH]; simpl.
  - eauto.
  - destruct (kind_compares _ _ Hy Hx) as [[] ->]; simpl.
    + destruct IH as (s' & -> & Hp). simpl. eexists. split; [reflexivity|].
      rewrite Hp. apply perm_swap.
    + eauto.
Qed.

Lemma sort_keyed_one_kind (l : list (json * json)) :
  Forall (fun p => kind (fst p) = true) l ->
  exists s, sort_keyed l = Ok s /\ Permutation s l.
Proof.
  induction 1 as [|x l Hx Hl IH]; simpl; [eauto|].
  destruct IH as (s & -> & Hp). simpl.
  destruct (insert_keyed_one_kind x s Hx) as (s' & Hs' & Hp').
  { rewrite List.Forall_forall in *. intros p Hin. apply Hl.
    now apply (Permutation_in _ Hp). }
  exists s'. split; [exact Hs'|]. rewrite Hp'. now constructor.
Qed.

End OneKind.

Lemma existsb_false_Forall {A : Type} (f g : A -> bool) (l : list A) :
  Forall (fun x => f x || g x = true) l -> existsb g l = false ->
  Forall (fun x => f x = true) l.
Proof.
  induction 1 as [|x l Hx Hl IH]; simpl; [constructor|].
  intros [Hg Hrest]%orb_false_elim. constructor; [|auto].
  now rewrite Hg, orb_false_r in Hx.
Qed.

(** A list that holds string keys and number keys cannot be sorted:
    whatever the order, the sort comes to compare two keys of different
    kinds. *)
Lemma sort_keyed_mixed (l : list (json * json)) :
  Forall (fun p => is_str (fst p) || is_num (fst p) = true) l ->
  existsb (fun p => is_str (fst p)) l = true ->
  existsb (fun p => is_num (fst p)) l = true ->
  sort_keyed l = Raise TypeError.
Proof.
  induction 1 as [|x l Hx Hl IH]; simpl; [discriminate|].
  intros Hstr Hnum.
  destruct (existsb (fun p => is_str (fst p)) l) eqn:Es;
    destruct (existsb (fun p => is_num (fst p)) l) eqn:En.
  - now rewrite IH.
  - (* the rest holds strings only, and [x] holds a number *)
    rewrite orb_false_r in Hnum.
    pose proof (existsb_false_Forall _ _ l Hl En) as Hall.
    destruct (sort_keyed_one_kind is_str) with (l := l) as (s & -> & Hp);
      [intros a b Ha Hb; apply py_lt_same_kind; auto | exact Hall |].
    simpl. destruct s as [|y s].
    { apply Permutation_nil in Hp. subst l. discriminate. }
    simpl. rewrite py_lt_mixed; [reflexivity|]. left. split; [|exact Hnum].
    rewrite List.Forall_forall in Hall. apply (Hall y).
    apply (Permutation_in _ Hp). now left.
  - rewrite orb_false_r in Hstr.
    assert (Hl' : Forall (fun p => is_num (fst p) || is_str (fst p) = true) l).
    { eapply List.Forall_impl; [|exact Hl]. intros p Hp.
      now rewrite orb_comm. }
    pose proof (existsb_false_Forall _ _ l Hl' Es) as Hall.
    destruct (sort_keyed_one_kind is_num) with (l := l) as (s & -> & Hp);
      [intros a b Ha Hb; apply py_lt_same_kind; auto | exact Hall |].
    simpl. destruct s as [|y s].
    { apply Permutation_nil in Hp. subst l. discriminate. }
    simpl. rewrite py_lt_mixed; [reflexivity|]. right. split; [|exact Hstr].
    rewrite List.Forall_forall in Hall. apply (Hall y).
    apply (Permutation_in _ Hp). now left.
  - rewrite orb_false_r in Hstr, Hnum.
    destruct (fst x); discriminate.
Qed.

Lemma date_key_value (x : json) :
  date_ok x || date_numeric x = true ->
  date_key x = Ok (date_value x) /\
  is_str (date_value x) = date_ok x /\
  is_num (date_value x) = date_numeric x.
Proof.
  destruct x as [| | | | |fields]; try discriminate.
  unfold date_ok, date_numeric, date_key, date_value, py_or. simpl.
  destruct (dict_get fields "date_utc") as [| |n|s| |]; try discriminate;
    simpl; intros H; auto.
  - rewrite H. auto.
  - destruct (String.eqb s ""); auto.
Qed.

Lemma existsb_In {A : Type} (f : A -> bool) (l : list A) (x : A) :
  In x l -> f x = true -> existsb f l = true.
Proof. intros Hx Hf. apply existsb_exists. eauto. Qed.

Lemma existsb_rev {A : Type} (f : A -> bool) (l : list A) :
  existsb f (rev l) = existsb f l.
Proof.
  destruct (existsb f l) eqn:E.
  - apply existsb_exists in E as (x & Hx & Hf). apply existsb_exists.
    exists x. split; [now apply in_rev in Hx | exact Hf].
  - destruct (existsb f (rev l)) eqn:E'; [|reflexivity].
    apply existsb_exists in E' as (x & Hx & Hf).
    apply in_rev in Hx. now rewrite (existsb_In f l x Hx Hf) in E.
Qed.

Lemma list_sort_keyed (reverse : bool) (l : list json) :
  forallb (fun x => date_ok x || date_numeric x) l = true ->
  list_sort date_key reverse l =
  (sorted <- sort_keyed (if reverse
                         then rev (map (fun x => (date_value x, x)) l)
                         else map (fun x => (date_value x, x)) l) ;;
   Ok (map snd (if reverse then rev sorted else sorted))).
Proof.
  intros Hl. unfold list_sort.
  rewrite (mapM_pure _ (fun x => (date_value x, x))); [reflexivity|].
  rewrite List.Forall_forall. intros x Hx.
  rewrite forallb_forall in Hl.
  destruct (date_key_value x (Hl x Hx)) as (-> & _). reflexivity.
Qed.

Lemma list_sort_numeric (reverse : bool) (l : list json) :
  forallb date_numeric l = true ->
  exists res, list_sort date_key reverse l = Ok res.
Proof.
  intros Hl. rewrite list_sort_keyed.
  2:{ rewrite forallb_forall in *. intros x Hx. rewrite (Hl x Hx).
      apply orb_true_r. }
  assert (Hall : Forall (fun p : json * json => is_num (fst p) = true)
                   (map (fun x => (date_value x, x)) l)).
  { rewrite List.Forall_forall. intros p Hp.
    apply in_map_iff in Hp as (x & <- & Hx). simpl.
    rewrite forallb_forall in Hl.
    destruct (date_key_value x) as (_ & _ & ->); [|now apply Hl].
    rewrite (Hl x Hx). apply orb_true_r. }
  destruct (sort_keyed_one_kind is_num) with
    (l := if reverse then rev (map (fun x => (date_value x, x)) l)
          else map (fun x => (date_value x, x)) l) as (s & -> & _).
  - intros a b Ha Hb. apply py_lt_same_kind. auto.
  - destruct reverse; [|exact Hall].
    rewrite List.Forall_forall in *. intros p Hp. apply Hall.
    now apply in_rev.
  - simpl. eauto.
Qed.

Lemma list_sort_mixed (reverse : bool) (l : list json) (a b : json) :
  forallb (fun x => date_ok x || date_numeric x) l = true ->
  In a l -> date_numeric a = true ->
  In b l -> date_ok b = true ->
  list_sort date_key reverse l = Raise TypeError.
Proof.
  intros Hl Ha Hna Hb Hsb. rewrite list_sort_keyed by exact Hl.
  rewrite forallb_forall in Hl.
  assert (Hall : Forall (fun p : json * json =>
                           is_str (fst p) || is_num (fst p) = true)
                   (map (fun x => (date_value x, x)) l)).
  { rewrite List.Forall_forall. intros p Hp.
    apply in_map_iff in Hp as (x & <- & Hx). simpl.
    destruct (date_key_value x (Hl x Hx)) as (_ & -> & ->). auto. }
  assert (Hs : existsb (fun p : json * json => is_str (fst p))
                 (map (fun x => (date_value x, x)) l) = true).
  { apply existsb_In with (x := (date_value b, b)).
    - apply in_map_iff. eauto.
    - simpl. destruct (date_key_value b (Hl b Hb)) as (_ & -> & _).
      exact Hsb. }
  assert (Hn : existsb (fun p : json * json => is_num (fst p))
                 (map (fun x => (date_value x, x)) l) = true).
  { apply existsb_In with (x := (date_value a, a)).
    - apply in_map_iff. eauto.
    - simpl. destruct (date_key_value a (Hl a Ha)) as (_ & _ & ->).
      exact Hna. }
  rewrite sort_keyed_mixed; [reflexivity|..].
  - destruct reverse; [|exact Hall].
    rewrite List.Forall_forall in *. intros p Hp. apply Hall.
    now apply in_rev.
  - destruct reverse; [now rewrite existsb_rev | exact Hs].
  - destruct reverse; [now rewrite existsb_rev | exact Hn].
Qed.

(** C10, as the code has it: both loaders return when every fetched
    record's [date_utc] is absent, null or a string, and also when every
    one is a number other than zero; a [date_utc] that is false (null,
    zero, the empty string) is replaced by the key [""]; and both loaders
    raise [TypeError] when the fetched records, each with a [date_utc]
    that is absent, null, a string or a number other than zero, include
    one with such a number and one without. *)
Theorem loaders_total_on_comparable_dates (net : network) (limit : Z)
  (up past : list json) :
  fetched net "/launches/upcoming" up ->
  fetched net "/launches/past" past ->
  (forallb date_ok up = true ->
   exists res, get_upcoming_launches net = Ok res) /\
  (forallb date_ok past = true ->
   exists res, get_past_launches net limit = Ok res) /\
  (forallb date_numeric up = true ->
   exists res, get_upcoming_launches net = Ok res) /\
  (forallb date_numeric past = true ->
   exists res, get_past_launches net limit = Ok res) /\
  (forall x d, py_get x "date_utc" = Ok d -> truthy d = false ->
               date_key x = Ok (JStr "")) /\
  (forall a b,
      forallb (fun x => date_ok x || date_numeric x) up = true ->
      In a up -> date_numeric a = true -> In b up -> date_ok b = true ->
      get_upcoming_launches net = Raise TypeError) /\
  (forall a b,
      forallb (fun x => date_ok x || date_numeric x) past = true ->
      In a past -> date_numeric a = true -> In b past -> date_ok b = true ->
      get_past_launches net limit = Raise TypeError).
Proof.
  intros Hup Hpast.
  split; [|split; [|split; [|split; [|split; [|split]]]]].
  - intros Hl. eexists. apply get_upcoming_launches_eq; eassumption.
  - intros Hl. eexists. apply get_past_launches_eq; eassumption.
  - intros Hl. unfold get_upcoming_launches. rewrite Hup. simpl.
    now apply list_sort_numeric.
  - intros Hl. unfold get_past_launches. rewrite Hpast. simpl.
    destruct (list_sort_numeric true past Hl) as [res ->]. simpl. eauto.
  - intros x d Hx Hd. unfold date_key, py_or. rewrite Hx. simpl.
    now rewrite Hd.
  - intros a b Hl Ha Hna Hb Hsb. unfold get_upcoming_launches.
    rewrite Hup. simpl. now apply (list_sort_mixed false up a b).
  - intros a b Hl Ha Hna Hb Hsb. unfold get_past_launches.
    rewrite Hpast. simpl. now rewrite (list_sort_mixed true past a b).
Qed.

Lemma loaders_total_on_comparable_dates_witness :
  fetched (serving (JArr [JObj [("date_utc", JNum 20240301)]; launch_a]))
    "/launches/upcoming" [JObj [("date_utc", JNum 20240301)]; launch_a] /\
  fetched (serving (JArr [JObj [("date_utc", JNum 20240301)]; launch_a]))
    "/launches/past" [JObj [("date_utc", JNum 20240301)]; launch_a] /\
  get_upcoming_launches
    (serving (JArr [JObj [("date_utc", JNum 20240301)]; launch_a]))
  = Raise TypeError /\
  get_past_launches
    (serving (JArr [JObj [("date_utc", JNum 20240301)]; launch_a])) 20
  = Raise TypeError.
Proof.
  split; [reflexivity|]. split; [reflexivity|].
  destruct (loaders_total_on_comparable_dates
              (serving (JArr [JObj [("date_utc", JNum 20240301)]; launch_a]))
              20
              [JObj [("date_utc", JNum 20240301)]; launch_a]
              [JObj [("date_utc", JNum 20240301)]; launch_a]
              eq_refl eq_refl)
    as (_ & _ & _ & _ & _ & Hup & Hpast).
  split.
  - apply (Hup (JObj [("date_utc", JNum 20240301)]) launch_a);
      [reflexivity | now left | reflexivity | right; now left | reflexivity].
  - apply (Hpast (JObj [("date_utc", JNum 20240301)]) launch_a);
      [reflexivity | now left | reflexivity | right; now left | reflexivity].
Defined.

(** C10 as stated fails: string timestamps are not the only ones under
    which the loaders return, and a numeric [date_utc] does not by itself
    make the comparison fail.  Two records with numeric timestamps are
    sorted by them, and a [date_utc] of zero is replaced by the key [""]
    like a missing one, so it sorts among string timestamps. *)
Lemma numeric_dates_counterexample :
  date_ok (JObj [("date_utc", JNum 20240302)]) = false /\
  date_ok (JObj [("date_utc", JNum 0)]) = false /\
  get_upcoming_launches
    (serving (JArr [JObj [("date_utc", JNum 20240302)];
                    JObj [("date_utc", JNum 20240301)]]))
  = Ok [JObj [("date_utc", JNum 20240301)];
        JObj [("date_utc", JNum 20240302)]] /\
  get_past_launches
    (serving (JArr [JObj [("date_utc", JNum 20240301)];
                    JObj [("date_utc", JNum 20240302)]])) 20
  = Ok [JObj [("date_utc", JNum 20240302)];
        JObj [("date_utc", JNum 20240301)]] /\
  get_upcoming_launches
    (serving (JArr [launch_a; JObj [("date_utc", JNum 0)]]))
  = Ok [JObj [("date_utc", JNum 0)]; launch_a] /\
  get_past_launches
    (serving (JArr [JObj [("date_utc", JNum 0)]; launch_a])) 20
  = Ok [launch_a; JObj [("date_utc", JNum 0)]].
Proof. repeat split; reflexivity. Qed.

(** ** Reference-data loaders *)

Lemma foldM_rocket_keys (rockets : list json) (acc m : gmap pykey json)
  (k : pykey) :
  foldM rocket_step acc rockets = Ok m -> is_Some (m !! k) ->
  is_Some (acc !! k) \/
  exists r _id, In r rockets /\ py_get r "id" = Ok _id /\
                truthy _id = true /\ hash_key _id = Ok k.
Proof.
  revert acc. induction rockets as [|r rockets IH]; simpl; intros acc Hm Hk.
  - injection Hm as <-. now left.
  - apply bind_Ok in Hm as (acc' & Hstep & Hm).
    destruct (IH acc' Hm Hk) as [Hacc'|(r' & i & Hin & Hi & Ht & Hh)].
    2:{ right. exists r', i. auto. }
    unfold rocket_step in Hstep.
    destruct (py_get r "id") as [_id|] eqn:Hid; simpl in Hstep; [|discriminate].
    destruct (py_get r "name") as [n|]; simpl in Hstep; [|discriminate].
    destruct (truthy _id) eqn:Ht.
    + destruct (hash_key _id) as [k'|] eqn:Hh; simpl in Hstep; [|discriminate].
      injection Hstep as <-.
      destruct (decide (k' = k)) as [->|Hne].
      * right. exists r, _id. auto.
      * left. now rewrite lookup_insert_ne in Hacc'.
    + injection Hstep as <-. now left.
Qed.

(** Every key of the rocket map is the id of a fetched entry that has
    one. *)
Lemma rocket_map_keys_have_id (net : network) (rockets : list json)
  (m : gmap pykey json) (k : pykey) :
  py_iter (py_or (fetch_json net "/rockets") (JArr [])) = Ok rockets ->
  load_rocket_map net = Ok m -> is_Some (m !! k) ->
  exists r _id, In r rockets /\ py_get r "id" = Ok _id /\
                truthy _id = true /\ hash_key _id = Ok k.
Proof.
  intros Hit Hm Hk. unfold load_rocket_map in Hm. rewrite Hit in Hm.
  simpl in Hm.
  destruct (foldM_rocket_keys _ _ _ _ Hm Hk) as [Hempty|H]; [|exact H].
  rewrite lookup_empty in Hempty. now destruct Hempty.
Qed.

(** C1: on an entry that has no id the two loaders differ.  The rocket
    loader skips it; the launchpad loader has no such test and stores the
    entry under the key [None]. *)
Theorem launchpad_map_indexes_entry_without_id :
  load_rocket_map (serving (JArr [pad_without_id])) = Ok ∅ /\
  exists m,
    load_launchpad_map (serving (JArr [pad_without_id])) = Ok m /\
    py_get pad_without_id "id" = Ok JNull /\
    m !! KNone = Some (JStr "LC-39A").
Proof.
  split; [reflexivity|].
  eexists. split; [reflexivity|]. split; [reflexivity|].
  vm_compute. reflexivity.
Qed.

Lemma string_app_cons (x : ascii) (a b : string) :
  String x a +:+ b = String x (a +:+ b).
Proof. reflexivity. Qed.

Lemma string_app_assoc (a b c : string) : (a +:+ b) +:+ c = a +:+ b +:+ c.
Proof.
  induction a as [|x a IH]; [reflexivity|].
  now rewrite !string_app_cons, IH.
Qed.

Lemma py_or_text (s fallback : string) :
  fallback <> "" ->
  py_or (JStr s) (JStr fallback) =
  JStr (if String.eqb s "" then fallback else s).
Proof. intros _. unfold py_or. simpl. now destruct (String.eqb s ""). Qed.

Lemma text_field_or (fields : list (string * json)) (k s fallback : string) :
  text_field fields k s ->
  py_or (dict_get fields k) (JStr fallback) =
  JStr (if String.eqb s "" then fallback else s).
Proof.
  intros [->|[-> ->]]; [|reflexivity].
  unfold py_or. simpl. now destruct (String.eqb s "").
Qed.

Lemma shown_name_nonempty (name : string) :
  (if String.eqb name "" then "Unknown pad" else name) <> "".
Proof. destruct (String.eqb_spec name ""); [discriminate | assumption]. Qed.

(** C9: the value stored for a launchpad entry is its name (or
    ["Unknown pad"]) followed by the parenthesized, comma-joined non-empty
    ones of locality and region; with both empty there are no
    parentheses, and with only a region it is ["Name (Region)"]. *)
Theorem pad_display_composition (fields : list (string * json))
  (name locality region : string) :
  text_field fields "name" name ->
  text_field fields "locality" locality ->
  text_field fields "region" region ->
  let shown := if String.eqb name "" then "Unknown pad" else name in
  pad_display (JObj fields)
    = Ok (JStr (pad_label_spec shown locality region)) /\
  (locality = "" -> region = "" ->
   pad_display (JObj fields) = Ok (JStr shown)) /\
  (locality = "" -> region <> "" ->
   pad_display (JObj fields) = Ok (JStr (shown +:+ " (" +:+ region +:+ ")"))) /\
  (forall m k,
      hash_key (dict_get fields "id") = Ok k ->
      launchpad_step m (JObj fields) =
      Ok (<[k := JStr (pad_label_spec shown locality region)]> m)).
Proof.
  intros Hn Hl Hr shown.
  assert (Hd : pad_display (JObj fields)
               = Ok (JStr (pad_label_spec shown locality region))).
  { unfold pad_display. simpl.
    rewrite (text_field_or _ _ _ _ Hn), (text_field_or _ _ _ "" Hl),
      (text_field_or _ _ _ "" Hr).
    fold shown.
    destruct locality as [|a locality], region as [|b region]; simpl;
      rewrite <- ?string_app_assoc; reflexivity. }
  split; [exact Hd|]. split; [|split].
  - intros -> ->. exact Hd.
  - intros -> Hne. rewrite Hd. now destruct region.
  - intros m k Hk. unfold launchpad_step. simpl. rewrite Hd. simpl.
    now rewrite Hk.
Qed.

Lemma pad_display_composition_witness :
  text_field pad_region_only_fields "name" "KSC LC 39A" /\
  text_field pad_region_only_fields "locality" "" /\
  text_field pad_region_only_fields "region" "Florida" /\
  pad_display (JObj pad_region_only_fields) = Ok (JStr "KSC LC 39A (Florida)").
Proof.
  assert (Hn : text_field pad_region_only_fields "name" "KSC LC 39A")
    by (left; reflexivity).
  assert (Hl : text_field pad_region_only_fields "locality" "")
    by (right; split; reflexivity).
  assert (Hr : text_field pad_region_only_fields "region" "Florida")
    by (left; reflexivity).
  split; [exact Hn|]. split; [exact Hl|]. split; [exact Hr|].
  exact (proj1 (pad_display_composition pad_region_only_fields
                  "KSC LC 39A" "" "Florida" Hn Hl Hr)).
Defined.

(** ** Resolving references in the views *)

Lemma dict_get_default_resolves (m : gmap pykey json) (ref fallback : json) :
  ref_ok ref = true ->
  exists shown,
    dict_get_default m ref fallback = Ok shown /\ resolves m ref fallback shown.
Proof.
  intros Href. unfold dict_get_default, resolves.
  destruct (hash_key ref) as [k|] eqn:Hk.
  - simpl. destruct (m !! k) as [v|] eqn:Hv; eauto 8.
  - destruct ref; simpl in *; discriminate.
Qed.

Lemma refs_ok_inv (launch : json) :
  refs_ok launch = true ->
  ref_field_ok launch "rocket" = true /\
  ref_field_ok launch "launchpad" = true.
Proof.
  destruct launch as [| | | | |fields]; try discriminate. simpl.
  now intros [H1 H2]%andb_prop.
Qed.

Lemma ref_field_ok_inv (launch : json) (field : string) :
  ref_field_ok launch field = true ->
  exists r, py_get launch field = Ok r /\ ref_ok r = true.
Proof.
  destruct launch as [| | | | |fields]; try discriminate. simpl. eauto.
Qed.

(** Resolving a reference that is absent, null or a scalar never fails,
    and yields the mapped value or the fallback. *)
Lemma resolve_reference_ok (m : gmap pykey json) (launch : json)
  (field : string) (fallback : json) :
  ref_field_ok launch field = true ->
  exists r shown,
    py_get launch field = Ok r /\
    resolve_reference m launch field fallback = Ok shown /\
    resolves m r fallback shown.
Proof.
  intros (r & Hr & Hok)%ref_field_ok_inv.
  destruct (dict_get_default_resolves m r fallback Hok) as (shown & Hs & Hres).
  exists r, shown. split; [exact Hr|]. split; [|exact Hres].
  unfold resolve_reference. now rewrite Hr.
Qed.


Section Views.

Variable datetime : Type.
Variable fromisoformat : string -> option datetime.
Variable strftime : datetime -> string -> option string.
Variable textwrap_fill : string -> nat -> string.

(** What a row built by the loop holds. *)
Lemma table_row_of_inv (rm pm : gmap pykey json) (idx : Z) (launch : json)
  (row : table_row) :
  table_row_of fromisoformat strftime rm pm idx launch = Ok row ->
  row_idx row = idx /\
  exists n d s,
    py_get launch "name" = Ok n /\
    row_name row = py_or n (JStr "(no name)") /\
    py_get launch "date_utc" = Ok d /\
    row_date row = format_datetime fromisoformat strftime d /\
    py_get launch "success" = Ok s /\
    row_success row = success_cell s.
Proof.
  unfold table_row_of. intros H.
  apply bind_Ok in H as (n & Hn & H).
  apply bind_Ok in H as (d & Hd & H).
  apply bind_Ok in H as (rocket & Hrocket & H).
  apply bind_Ok in H as (pad & Hpad & H).
  apply bind_Ok in H as (s & Hs & H).
  injection H as <-. simpl. split; [reflexivity|].
  exists n, d, s. auto 10.
Qed.

Lemma table_row_of_refs (rm pm : gmap pykey json) (idx : Z) (launch : json)
  (row : table_row) :
  table_row_of fromisoformat strftime rm pm idx launch = Ok row ->
  resolve_reference rm launch "rocket" (JStr "Unknown")
    = Ok (row_rocket row) /\
  resolve_reference pm launch "launchpad" (JStr "Unknown")
    = Ok (row_pad row).
Proof.
  unfold table_row_of. intros H.
  apply bind_Ok in H as (n & Hn & H).
  apply bind_Ok in H as (d & Hd & H).
  apply bind_Ok in H as (rocket & Hrocket & H).
  apply bind_Ok in H as (pad & Hpad & H).
  apply bind_Ok in H as (s & Hs & H).
  injection H as <-. simpl. auto.
Qed.

Lemma table_row_of_ok (rm pm : gmap pykey json) (idx : Z) (launch : json) :
  refs_ok launch = true ->
  exists row, table_row_of fromisoformat strftime rm pm idx launch = Ok row.
Proof.
  intros [Hr Hp]%refs_ok_inv.
  destruct (resolve_reference_ok rm launch "rocket" (JStr "Unknown") Hr)
    as (r & rocket & Hget & Hrocket & _).
  destruct (resolve_reference_ok pm launch "launchpad" (JStr "Unknown") Hp)
    as (p & pad & _ & Hpad & _).
  unfold table_row_of.
  destruct launch as [| | | | |fields]; try discriminate. simpl.
  rewrite Hrocket. simpl. rewrite Hpad. simpl. eauto.
Qed.

Lemma table_rows_inv (rm pm : gmap pykey json) (launches : list json) :
  forall (idx : Z) (rows : list table_row),
    table_rows fromisoformat strftime rm pm idx launches = Ok rows ->
    forall i row,
      rows !! i = Some row ->
      exists launch,
        launches !! i = Some launch /\
        table_row_of fromisoformat strftime rm pm (idx + Z.of_nat i) launch
          = Ok row.
Proof.
  induction launches as [|launch launches IH]; simpl;
    intros idx rows H i row Hi.
  - injection H as <-. discriminate.
  - apply bind_Ok in H as (row0 & Hrow0 & H).
    apply bind_Ok in H as (u & _ & H).
    apply bind_Ok in H as (rows' & Hrows' & H). injection H as <-.
    destruct i as [|i]; simpl in Hi.
    + injection Hi as <-. exists launch. split; [reflexivity|].
      now rewrite Z.add_0_r.
    + destruct (IH _ _ Hrows' i row Hi) as (l & Hl & Hrow).
      exists l. split; [exact Hl|].
      now replace (idx + Z.of_nat (S i)) with (idx + 1 + Z.of_nat i) by lia.
Qed.

Lemma table_rows_length (rm pm : gmap pykey json) (launches : list json) :
  forall (idx : Z) (rows : list table_row),
    table_rows fromisoformat strftime rm pm idx launches = Ok rows ->
    List.length rows = List.length launches.
Proof.
  induction launches as [|launch launches IH]; simpl; intros idx rows H.
  - now injection H as <-.
  - apply bind_Ok in H as (row0 & Hrow0 & H).
    apply bind_Ok in H as (u & _ & H).
    apply bind_Ok in H as (rows' & Hrows' & H). injection H as <-.
    simpl. f_equal. eauto.
Qed.

(** What the table view did when it returns a table. *)
Lemma show_launch_table_inv (net : network) (title : string)
  (launches : list json) (view : table_view) :
  show_launch_table fromisoformat strftime net title launches = Ok view ->
  (launches = [] /\ view = NoLaunchesPanel title) \/
  (exists rm pm rows,
      launches <> [] /\ view = LaunchTable title rows /\
      load_rocket_map net = Ok rm /\ load_launchpad_map net = Ok pm /\
      table_rows fromisoformat strftime rm pm 1 launches = Ok rows).
Proof.
  unfold show_launch_table. destruct launches as [|l0 ls].
  - intros H. apply bind_Ok in H as (u & _ & H). injection H as <-.
    now left.
  - intros H. right.
    apply bind_Ok in H as (rm & Hrm & H).
    apply bind_Ok in H as (pm & Hpm & H).
    apply bind_Ok in H as (rows & Hrows & H).
    apply bind_Ok in H as (u & _ & H). injection H as <-.
    exists rm, pm, rows. split; [discriminate|]. auto.
Qed.

(** What the panel of the detail view holds. *)
Lemma show_launch_details_inv (net : network) (launch : json)
  (v : detail_view) :
  show_launch_details fromisoformat strftime textwrap_fill net launch = Ok v ->
  exists n s dt,
    py_get launch "name" = Ok n /\
    det_name v = py_or n (JStr "(no name)") /\
    py_get launch "success" = Ok s /\
    det_status v = status_line s /\
    py_get launch "details" = Ok dt /\
    py_fill textwrap_fill (py_or dt (JStr "No description provided.")) 90
      = Ok (det_details v) /\
    link_of launch "webcast" = Ok (det_webcast v) /\
    link_of launch "article" = Ok (det_article v) /\
    link_of launch "wikipedia" = Ok (det_wiki v).
Proof.
  unfold show_launch_details. intros H.
  apply bind_Ok in H as (rm & _ & H).
  apply bind_Ok in H as (pm & _ & H).
  apply bind_Ok in H as (n & Hn & H).
  apply bind_Ok in H as (d & Hd & H).
  apply bind_Ok in H as (rocket & Hrocket & H).
  apply bind_Ok in H as (pad & Hpad & H).
  apply bind_Ok in H as (s & Hs & H).
  apply bind_Ok in H as (dt & Hdt & H).
  apply bind_Ok in H as (fn & Hfn & H).
  apply bind_Ok in H as (webcast & Hw & H).
  apply bind_Ok in H as (article & Ha & H).
  apply bind_Ok in H as (wiki & Hk & H).
  apply bind_Ok in H as (wrapped & Hfill & H).
  apply bind_Ok in H as (u & _ & H).
  injection H as <-. simpl. exists n, s, dt. auto 12.
Qed.

Lemma show_launch_details_refs (net : network) (launch : json)
  (v : detail_view) :
  show_launch_details fromisoformat strftime textwrap_fill net launch = Ok v ->
  exists rm pm,
    load_rocket_map net = Ok rm /\ load_launchpad_map net = Ok pm /\
    resolve_reference rm launch "rocket" (JStr "Unknown rocket")
      = Ok (det_rocket v) /\
    resolve_reference pm launch "launchpad" (JStr "Unknown launchpad")
      = Ok (det_pad v).
Proof.
  unfold show_launch_details. intros H.
  apply bind_Ok in H as (rm & Hrm & H).
  apply bind_Ok in H as (pm & Hpm & H).
  apply bind_Ok in H as (n & Hn & H).
  apply bind_Ok in H as (d & Hd & H).
  apply bind_Ok in H as (rocket & Hrocket & H).
  apply bind_Ok in H as (pad & Hpad & H).
  apply bind_Ok in H as (s & Hs & H).
  apply bind_Ok in H as (dt & Hdt & H).
  apply bind_Ok in H as (fn & Hfn & H).
  apply bind_Ok in H as (webcast & Hw & H).
  apply bind_Ok in H as (article & Ha & H).
  apply bind_Ok in H as (wiki & Hk & H).
  apply bind_Ok in H as (wrapped & Hfill & H).
  apply bind_Ok in H as (u & _ & H).
  injection H as <-. simpl. exists rm, pm. auto.
Qed.

(** C5, as the code has it: both views resolve a reference as
    [mapping.get(launch.get(field), fallback)].  For a launch record
    whose reference is absent, null or a scalar this never fails, under
    any mapping, and yields the mapped name or, for an id the mapping
    lacks, the fallback.  The table view passes the fallback ["Unknown"]
    for both references: for every record with such references the body
    of its loop computes the cells of the row without failing, and the
    rocket and launchpad cells are the two results.  The detail view
    passes ["Unknown rocket"] and ["Unknown launchpad"], and whenever it
    returns its panel shows the two results. *)
Theorem references_resolve_in_both_views :
  (forall m launch field fallback,
      ref_field_ok launch field = true ->
      exists r shown,
        py_get launch field = Ok r /\
        resolve_reference m launch field fallback = Ok shown /\
        resolves m r fallback shown) /\
  (forall rm pm idx launch,
      refs_ok launch = true ->
      exists row,
        table_row_of fromisoformat strftime rm pm idx launch = Ok row /\
        resolve_reference rm launch "rocket" (JStr "Unknown")
          = Ok (row_rocket row) /\
        resolve_reference pm launch "launchpad" (JStr "Unknown")
          = Ok (row_pad row)) /\
  (forall net launch v,
      show_launch_details fromisoformat strftime textwrap_fill net launch
        = Ok v ->
      exists rm pm,
        load_rocket_map net = Ok rm /\ load_launchpad_map net = Ok pm /\
        resolve_reference rm launch "rocket" (JStr "Unknown rocket")
          = Ok (det_rocket v) /\
        resolve_reference pm launch "launchpad" (JStr "Unknown launchpad")
          = Ok (det_pad v)).
Proof.
  split; [|split].
  - intros m launch field fallback. apply resolve_reference_ok.
  - intros rm pm idx launch Hrefs.
    destruct (table_row_of_ok rm pm idx launch Hrefs) as [row Hrow].
    exists row. split; [exact Hrow|]. now apply table_row_of_refs in Hrow.
  - intros net launch v. apply show_launch_details_refs.
Qed.



End Views.

Lemma references_resolve_in_both_views_witness :
  ref_field_ok launch_b "rocket" = true /\
  refs_ok launch_b = true /\
  resolve_reference (<[KStr "r9" := JStr "Falcon 9"]> ∅) launch_b "rocket"
    (JStr "Unknown") = Ok (JStr "Falcon 9") /\
  (exists row,
     table_row_of sample_fromisoformat sample_strftime
       (<[KStr "r9" := JStr "Falcon 9"]> ∅) ∅ 1 launch_b = Ok row /\
     row_rocket row = JStr "Falcon 9" /\ row_pad row = JStr "Unknown") /\
  exists v,
    show_launch_details sample_fromisoformat sample_strftime sample_fill
      (serving (JArr [rocket_f9])) launch_b = Ok v /\
    det_rocket v = JStr "Falcon 9" /\
    det_pad v = JStr "Unknown launchpad".
Proof.
  destruct (references_resolve_in_both_views unit sample_fromisoformat
              sample_strftime sample_fill) as (Hres & Hrow & Hdet).
  assert (E1 : resolve_reference (<[KStr "r9" := JStr "Falcon 9"]> ∅)
                 launch_b "rocket" (JStr "Unknown") = Ok (JStr "Falcon 9"))
    by (vm_compute; reflexivity).
  assert (E2 : resolve_reference ∅ launch_b "launchpad" (JStr "Unknown")
               = Ok (JStr "Unknown"))
    by (vm_compute; reflexivity).
  split; [reflexivity|]. split; [reflexivity|]. split; [|split].
  - destruct (Hres (<[KStr "r9" := JStr "Falcon 9"]> ∅) launch_b "rocket"
                (JStr "Unknown") eq_refl) as (r & shown & _ & Hshown & _).
    rewrite Hshown. rewrite E1 in Hshown. now symmetry.
  - destruct (Hrow (<[KStr "r9" := JStr "Falcon 9"]> ∅) ∅ 1 launch_b
                eq_refl) as (row & Hr & Hrocket & Hpad).
    exists row. split; [exact Hr|].
    rewrite E1 in Hrocket. rewrite E2 in Hpad.
    injection Hrocket as <-. injection Hpad as <-. split; reflexivity.
  - eexists. split; [vm_compute; reflexivity|].
    split; reflexivity.
Defined.

(** C5 as stated fails: for a launchpad id the mapping lacks, the detail
    view shows ["Unknown launchpad"], which is none of the mapped names
    (there is none) and none of the three strings the claim lists; and a
    reference that is a list cannot be hashed, so resolving it raises
    [TypeError] instead of yielding a fallback. *)
Lemma detail_pad_fallback_counterexample :
  load_launchpad_map unreachable = Ok ∅ /\
  (exists v,
     show_launch_details sample_fromisoformat sample_strftime sample_fill
       unreachable launch_b = Ok v /\
     det_pad v = JStr "Unknown launchpad" /\
     det_pad v <> JStr "Unknown rocket" /\
     det_pad v <> JStr "Unknown pad" /\
     det_pad v <> JStr "Unknown") /\
  resolve_reference ∅ (JObj [("rocket", JArr [JStr "r9"])]) "rocket"
    (JStr "Unknown") = Raise TypeError.
Proof.
  split; [reflexivity|]. split; [|reflexivity].
  eexists. split; [reflexivity|].
  simpl. repeat split; discriminate.
Qed.



(** A reference that is a list cannot be hashed: the lookup raises, in
    either view and whatever the mapping holds. *)
Example unhashable_reference_raises :
  dict_get_default ∅ (JArr [JStr "r9"]) (JStr "Unknown") = Raise TypeError.
Proof. reflexivity. Qed.

(** ** Timestamp formatting *)

Lemma replace_char_app (old : ascii) (new a b : string) :
  replace_char old new (a +:+ b) =
  replace_char old new a +:+ replace_char old new b.
Proof.
  induction a as [|c a IH]; [reflexivity|].
  rewrite string_app_cons. simpl. rewrite IH.
  destruct (Ascii.eqb c old); [now rewrite string_app_assoc | reflexivity].
Qed.

(** A ["Z"] suffix and a ["+00:00"] suffix are the same string once the
    replacement is done. *)
Lemma replace_Z_suffix (s : string) :
  replace_char "Z" "+00:00" (s +:+ "Z") =
  replace_char "Z" "+00:00" (s +:+ "+00:00").
Proof. now rewrite !replace_char_app. Qed.

Lemma string_app_nonempty (a b : string) : b <> "" -> a +:+ b <> "".
Proof. destruct a; [trivial | discriminate]. Qed.

Lemma replace_char_absent (old : ascii) (new s : string) :
  ~ In old (list_ascii_of_string s) -> replace_char old new s = s.
Proof.
  induction s as [|c s IH]; simpl; [reflexivity|].
  intros Hnot. destruct (Ascii.eqb_spec c old) as [->|_].
  - exfalso. apply Hnot. now left.
  - rewrite IH; [reflexivity|]. intros Hin. apply Hnot. now right.
Qed.

(** A timestamp with a ["Z"] suffix is parsed with ["+00:00"] in its
    place. *)
Lemma replace_Z_only_suffix (s : string) :
  ~ In "Z"%char (list_ascii_of_string s) ->
  replace_char "Z" "+00:00" (s +:+ "Z") = s +:+ "+00:00" /\
  replace_char "Z" "+00:00" (s +:+ "+00:00") = s +:+ "+00:00".
Proof.
  intros Hs. rewrite !replace_char_app, (replace_char_absent _ _ s Hs).
  split; reflexivity.
Qed.

Section FormattingProps.

Variable datetime : Type.
Variable fromisoformat : string -> option datetime.
Variable strftime : datetime -> string -> option string.

Lemma format_datetime_str (s : string) :
  s <> "" ->
  format_datetime fromisoformat strftime (JStr s) =
  match fromisoformat (replace_char "Z" "+00:00" s) with
  | Some dt =>
      match strftime dt "%Y-%m-%d %H:%M UTC" with
      | Some out => JStr out
      | None => JStr s
      end
  | None => JStr s
  end.
Proof.
  intros Hs. unfold format_datetime. simpl.
  destruct (String.eqb_spec s ""); [contradiction | reflexivity].
Qed.

(** C8, as the code has it.  For a timestamp [s] followed by ["Z"]
    ([s] holding no other ["Z"]): when [s] followed by ["+00:00"] parses
    and formats, both inputs give that formatted text; when it does not
    parse, each input is returned as it was given, so the two results
    differ in their suffix.  For every [s], the two inputs give the same
    result or each is returned unchanged.  A false input (absent, empty)
    gives ["—"]; a string without ["Z"] that does not parse is returned
    unchanged, and so is every string whose parse or whose formatting
    fails, and every true value that is no string: no exception
    escapes. *)
Theorem format_datetime_cases :
  (forall s dt out,
      ~ In "Z"%char (list_ascii_of_string s) ->
      fromisoformat (s +:+ "+00:00") = Some dt ->
      strftime dt "%Y-%m-%d %H:%M UTC" = Some out ->
      format_datetime fromisoformat strftime (JStr (s +:+ "Z")) = JStr out /\
      format_datetime fromisoformat strftime (JStr (s +:+ "+00:00"))
        = JStr out) /\
  (forall s,
      ~ In "Z"%char (list_ascii_of_string s) ->
      fromisoformat (s +:+ "+00:00") = None ->
      format_datetime fromisoformat strftime (JStr (s +:+ "Z"))
        = JStr (s +:+ "Z") /\
      format_datetime fromisoformat strftime (JStr (s +:+ "+00:00"))
        = JStr (s +:+ "+00:00")) /\
  (forall s,
      format_datetime fromisoformat strftime (JStr (s +:+ "Z")) =
      format_datetime fromisoformat strftime (JStr (s +:+ "+00:00")) \/
      (format_datetime fromisoformat strftime (JStr (s +:+ "Z"))
         = JStr (s +:+ "Z") /\
       format_datetime fromisoformat strftime (JStr (s +:+ "+00:00"))
         = JStr (s +:+ "+00:00"))) /\
  (forall v, truthy v = false ->
             format_datetime fromisoformat strftime v = JStr "—") /\
  (forall s,
      s <> "" -> ~ In "Z"%char (list_ascii_of_string s) ->
      fromisoformat s = None ->
      format_datetime fromisoformat strftime (JStr s) = JStr s) /\
  (forall s,
      s <> "" ->
      fromisoformat (replace_char "Z" "+00:00" s) = None \/
      (exists dt, fromisoformat (replace_char "Z" "+00:00" s) = Some dt /\
                  strftime dt "%Y-%m-%d %H:%M UTC" = None) ->
      format_datetime fromisoformat strftime (JStr s) = JStr s) /\
  (forall v,
      truthy v = true -> (forall s, v <> JStr s) ->
      format_datetime fromisoformat strftime v = v).
Proof.
  assert (HZ : forall s, s +:+ "Z" <> "")
    by (intros s; now apply string_app_nonempty).
  assert (HO : forall s, s +:+ "+00:00" <> "")
    by (intros s; now apply string_app_nonempty).
  split; [|split; [|split; [|split; [|split; [|split]]]]].
  - intros s dt out Hs Hdt Hout.
    destruct (replace_Z_only_suffix s Hs) as [EZ EO].
    rewrite !format_datetime_str, EZ, EO by auto.
    now rewrite Hdt, Hout.
  - intros s Hs Hfail.
    destruct (replace_Z_only_suffix s Hs) as [EZ EO].
    rewrite !format_datetime_str, EZ, EO by auto.
    now rewrite Hfail.
  - intros s. rewrite !format_datetime_str by auto.
    rewrite replace_Z_suffix.
    destruct (fromisoformat _) as [dt|]; [|now right].
    destruct (strftime dt _) as [out|]; [now left | now right].
  - intros v Hv. unfold format_datetime. now rewrite Hv.
  - intros s Hs HZs Hfail. rewrite format_datetime_str by auto.
    now rewrite (replace_char_absent _ _ s HZs), Hfail.
  - intros s Hs [Hfail|(dt & Hdt & Hfail)]; rewrite format_datetime_str by auto.
    + now rewrite Hfail.
    + now rewrite Hdt, Hfail.
  - intros v Hv Hstr. unfold format_datetime. rewrite Hv. simpl.
    destruct v; try reflexivity. now destruct (Hstr s).
Qed.

End FormattingProps.

Lemma format_datetime_cases_witness :
  ~ In "Z"%char (list_ascii_of_string "2024-03-01T12:00:00") /\
  sample_fromisoformat ("2024-03-01T12:00:00" +:+ "+00:00") = Some tt /\
  sample_strftime tt "%Y-%m-%d %H:%M UTC" = Some "2024-03-01 12:00 UTC" /\
  format_datetime sample_fromisoformat sample_strftime
    (JStr "2024-03-01T12:00:00Z") = JStr "2024-03-01 12:00 UTC" /\
  format_datetime sample_fromisoformat sample_strftime
    (JStr "2024-03-01T12:00:00+00:00") = JStr "2024-03-01 12:00 UTC".
Proof.
  assert (HZ : ~ In "Z"%char (list_ascii_of_string "2024-03-01T12:00:00")).
  { simpl. intros H.
    repeat (destruct H as [H|H]; [discriminate H|]). exact H. }
  split; [exact HZ|]. split; [reflexivity|]. split; [reflexivity|].
  destruct (format_datetime_cases unit sample_fromisoformat sample_strftime)
    as (Hsame & _).
  exact (Hsame "2024-03-01T12:00:00" tt "2024-03-01 12:00 UTC"
           HZ eq_refl eq_refl).
Defined.

(** C8 as stated fails: a string with a ["Z"] suffix that is no
    timestamp is returned unchanged, and so is the same string with
    ["+00:00"] in place of the suffix; the two results differ. *)
Lemma format_datetime_suffix_counterexample :
  sample_fromisoformat "next week+00:00" = None /\
  format_datetime sample_fromisoformat sample_strftime (JStr "next weekZ")
    = JStr "next weekZ" /\
  format_datetime sample_fromisoformat sample_strftime
    (JStr "next week+00:00") = JStr "next week+00:00" /\
  format_datetime sample_fromisoformat sample_strftime (JStr "next weekZ")
    <> format_datetime sample_fromisoformat sample_strftime
         (JStr "next week+00:00").
Proof.
  split; [reflexivity|]. split; [reflexivity|]. split; [reflexivity|].
  discriminate.
Qed.


(** ** Search *)












(** ** Stripping *)

Lemma is_white_space (c : ascii) : is_white c = is_space c.
Proof. destruct c as [[] [] [] [] [] [] [] []]; reflexivity. Qed.

Lemma blank_app (a b : string) : blank (a +:+ b) = blank a && blank b.
Proof.
  unfold blank. induction a as [|c a IH]; [reflexivity|].
  rewrite string_app_cons. simpl. now rewrite IH, andb_assoc.
Qed.


Lemma ascii_lstrip_spec (s : string) :
  exists pre,
    s = pre +:+ ascii_lstrip s /\ blank pre = true /\
    (forall c rest, ascii_lstrip s = String c rest -> is_white c = false).
Proof.
  induction s as [|c s (pre & Hs & Hpre & Hhead)]; simpl.
  - exists "". repeat split. discriminate.
  - destruct (is_space c) eqn:Hc.
    + exists (String c pre). rewrite string_app_cons, <- Hs.
      split; [reflexivity|]. split; [|exact Hhead].
      unfold blank. simpl. rewrite is_white_space, Hc. exact Hpre.
    + exists "". split; [reflexivity|]. split; [reflexivity|].
      intros c' rest [= <- _]. now rewrite is_white_space.
Qed.

Lemma string_app_last (init s : string) (a c : ascii) :
  init +:+ String c "" = String a s ->
  (init = "" /\ s = "" /\ a = c) \/
  (exists init', init = String a init' /\ init' +:+ String c "" = s).
Proof.
  destruct init as [|x init].
  - intros [= -> <-]. now left.
  - rewrite string_app_cons. intros [= -> <-]. right. eauto.
Qed.

Lemma ascii_rstrip_spec (s : string) :
  exists post,
    s = ascii_rstrip s +:+ post /\ blank post = true /\
    (forall init c, ascii_rstrip s = init +:+ String c "" ->
                    is_white c = false).
Proof.
  induction s as [|a s (post & Hs & Hpost & Hlast)]; simpl.
  - exists "". repeat split. intros [|x init] c H; discriminate.
  - destruct (ascii_rstrip s) as [|b r] eqn:Hr.
    + change (s = post) in Hs. subst post. destruct (is_space a) eqn:Ha.
      * exists (String a s). split; [reflexivity|].
        split; [|intros [|x init] c H; discriminate].
        unfold blank. simpl. rewrite is_white_space, Ha. exact Hpost.
      * exists s. split; [reflexivity|]. split; [exact Hpost|].
        intros init c H. symmetry in H.
        apply string_app_last in H as [(_ & _ & <-)|(init' & _ & H)].
        -- now rewrite is_white_space.
        -- destruct init'; discriminate.
    + exists post. rewrite string_app_cons, <- Hs.
      split; [reflexivity|]. split; [exact Hpost|].
      intros init c H. symmetry in H.
      apply string_app_last in H as [(_ & H & _)|(init' & _ & H)];
        [discriminate|].
      now apply (Hlast init' c).
Qed.

Lemma ascii_rstrip_head (c : ascii) (s : string) :
  is_space c = false ->
  exists rest, ascii_rstrip (String c s) = String c rest.
Proof.
  intros Hc. simpl. destruct (ascii_rstrip s); [rewrite Hc|]; eauto.
Qed.

(** [ascii_strip] removes the white space at the two ends, and nothing
    else. *)
Lemma ascii_strip_spec (s : string) : stripped_of s (ascii_strip s).
Proof.
  unfold ascii_strip.
  destruct (ascii_lstrip_spec s) as (pre & Hs & Hpre & Hhead).
  destruct (ascii_rstrip_spec (ascii_lstrip s)) as (post & Hl & Hpost & Hlast).
  exists pre, post. split; [now rewrite <- Hl|].
  split; [exact Hpre|]. split; [exact Hpost|]. split; [|exact Hlast].
  intros c rest Hq. destruct (ascii_lstrip s) as [|x l] eqn:El;
    [discriminate|].
  pose proof (Hhead x l eq_refl) as Hx. rewrite is_white_space in Hx.
  destruct (ascii_rstrip_head x l Hx) as [rest' Hr].
  rewrite Hr in Hq. injection Hq as <- _. now rewrite is_white_space.
Qed.


Lemma ascii_strip_not_blank (s : string) :
  blank s = false -> ascii_strip s <> "".
Proof.
  intros Hb Hq.
  destruct (ascii_strip_spec s) as (pre & post & Hs & Hp & Hq' & _).
  rewrite Hq in Hs. change ("" +:+ post) with post in Hs.
  now rewrite Hs, blank_app, Hp, Hq' in Hb.
Qed.


Lemma str_strip_ascii (s : string) :
  ascii_only s = true -> str_strip s = Ok (ascii_strip s).
Proof. intros H. unfold str_strip. now rewrite H. Qed.






(** * Further properties of the code *)

(** ** The loaders on payloads that are no list *)

Lemma slice_to_nil {A : Type} (stop : Z) : slice_to stop (@nil A) = [].
Proof. unfold slice_to. destruct (Z.leb 0 stop); apply firstn_nil. Qed.

(** A payload that is false in Python (the [None] of a failed fetch, an
    empty list, an empty object, [0], [""], [false]) is replaced by the
    empty list: the four loaders cannot tell a failed fetch from an empty
    collection and return the empty mapping or the empty list. *)
Theorem loaders_treat_no_data_as_empty (net : network) :
  (truthy (fetch_json net "/rockets") = false ->
   load_rocket_map net = Ok ∅) /\
  (truthy (fetch_json net "/launchpads") = false ->
   load_launchpad_map net = Ok ∅) /\
  (truthy (fetch_json net "/launches/upcoming") = false ->
   get_upcoming_launches net = Ok []) /\
  (truthy (fetch_json net "/launches/past") = false ->
   forall limit, get_past_launches net limit = Ok []).
Proof.
  unfold load_rocket_map, load_launchpad_map, get_upcoming_launches,
    get_past_launches, py_or.
  repeat split; intros H; rewrite H; try reflexivity.
  intros limit. simpl. now rewrite slice_to_nil.
Qed.

Lemma loaders_treat_no_data_as_empty_witness :
  truthy (fetch_json unreachable "/launches/past") = false /\
  get_past_launches unreachable 20 = Ok [].
Proof.
  split; [reflexivity|].
  exact (proj2 (proj2 (proj2 (loaders_treat_no_data_as_empty unreachable)))
           eq_refl 20).
Defined.

(** When an endpoint answers with a non-empty JSON object instead of an
    array, every loader raises [AttributeError]: the list loaders call
    [sort] on a dict, the map loaders call [get] on its first key. *)
Theorem loaders_reject_object_payload (net : network)
  (field : string * json) (fields : list (string * json)) :
  (fetch_json net "/rockets" = JObj (field :: fields) ->
   load_rocket_map net = Raise AttributeError) /\
  (fetch_json net "/launchpads" = JObj (field :: fields) ->
   load_launchpad_map net = Raise AttributeError) /\
  (fetch_json net "/launches/upcoming" = JObj (field :: fields) ->
   get_upcoming_launches net = Raise AttributeError) /\
  (fetch_json net "/launches/past" = JObj (field :: fields) ->
   forall limit, get_past_launches net limit = Raise AttributeError).
Proof.
  unfold load_rocket_map, load_launchpad_map, get_upcoming_launches,
    get_past_launches.
  repeat split; intros H; rewrite H; reflexivity.
Qed.

Lemma loaders_reject_object_payload_witness :
  fetch_json (serving (JObj [("error", JStr "Not Found")])) "/rockets"
    = JObj [("error", JStr "Not Found")] /\
  load_rocket_map (serving (JObj [("error", JStr "Not Found")]))
    = Raise AttributeError.
Proof.
  split; [reflexivity|].
  exact (proj1 (loaders_reject_object_payload
                  (serving (JObj [("error", JStr "Not Found")]))
                  ("error", JStr "Not Found") []) eq_refl).
Defined.

(** ** The rocket mapping *)

Lemma foldM_app {A S : Type} (step : S -> A -> result S) (s : S)
  (l1 l2 : list A) :
  foldM step s (l1 ++ l2) = (s' <- foldM step s l1 ;; foldM step s' l2).
Proof.
  revert s. induction l1 as [|x l1 IH]; intros s; simpl; [reflexivity|].
  destruct (step s x) as [s1|e]; simpl; [apply IH | reflexivity].
Qed.

Lemma py_or_truthy (a b : json) : truthy b = true -> truthy (py_or a b) = true.
Proof. intros Hb. unfold py_or. now destruct (truthy a) eqn:Ha. Qed.

Lemma rocket_step_inv (acc acc' : gmap pykey json) (r : json) :
  rocket_step acc r = Ok acc' ->
  exists _id n,
    py_get r "id" = Ok _id /\ py_get r "name" = Ok n /\
    ((truthy _id = false /\ acc' = acc) \/
     (truthy _id = true /\
      exists k, hash_key _id = Ok k /\
                acc' = <[k := py_or n (JStr "Unknown rocket")]> acc)).
Proof.
  unfold rocket_step. intros H.
  destruct (py_get r "id") as [_id|] eqn:Hid; simpl in H; [|discriminate].
  destruct (py_get r "name") as [n|] eqn:Hn; simpl in H; [|discriminate].
  exists _id, n. split; [reflexivity|]. split; [reflexivity|].
  destruct (truthy _id).
  - right. split; [reflexivity|].
    destruct (hash_key _id) as [k|]; simpl in H; [|discriminate].
    injection H as <-. eauto.
  - left. injection H as <-. auto.
Qed.

Lemma foldM_rocket_entries (rockets : list json) (acc m : gmap pykey json)
  (k : pykey) (v : json) :
  foldM rocket_step acc rockets = Ok m -> m !! k = Some v ->
  acc !! k = Some v \/ rocket_entry rockets k v.
Proof.
  revert acc. induction rockets as [|r rockets IH]; simpl; intros acc Hm Hk.
  - injection Hm as <-. now left.
  - apply bind_Ok in Hm as (acc' & Hstep & Hm).
    destruct (IH acc' Hm Hk) as [Hacc'|(r' & i & n & Hin & H)].
    2:{ right. exists r', i, n. split; [now right | exact H]. }
    apply rocket_step_inv in Hstep
      as (_id & n & Hid & Hn & [[_ ->]|[Ht (k' & Hh & ->)]]).
    + now left.
    + destruct (decide (k' = k)) as [->|Hne].
      * right. rewrite lookup_insert_eq in Hacc'. injection Hacc' as <-.
        exists r, _id, n. repeat split; auto. now left.
      * left. now rewrite lookup_insert_ne in Hacc'.
Qed.

(** Every entry of the rocket mapping comes from a fetched rocket with a
    true id; so the mapping has no [None] key, and no id is mapped to an
    empty name. *)
Theorem rocket_map_entries (net : network) (rockets : list json)
  (m : gmap pykey json) :
  py_iter (py_or (fetch_json net "/rockets") (JArr [])) = Ok rockets ->
  load_rocket_map net = Ok m ->
  (forall k v, m !! k = Some v -> rocket_entry rockets k v) /\
  m !! KNone = None /\
  (forall k v, m !! k = Some v -> truthy v = true).
Proof.
  intros Hit Hm. unfold load_rocket_map in Hm. rewrite Hit in Hm.
  simpl in Hm.
  assert (Hentry : forall k v, m !! k = Some v -> rocket_entry rockets k v).
  { intros k v Hk.
    destruct (foldM_rocket_entries _ _ _ _ _ Hm Hk) as [Hempty|H];
      [|exact H].
    now rewrite lookup_empty in Hempty. }
  split; [exact Hentry|]. split.
  - destruct (m !! KNone) as [v|] eqn:Hnone; [|reflexivity].
    destruct (Hentry _ _ Hnone) as (r & _id & n & _ & _ & Ht & Hh & _).
    destruct _id; simpl in *; discriminate.
  - intros k v Hk.
    destruct (Hentry _ _ Hk) as (r & _id & n & _ & _ & _ & _ & _ & ->).
    now apply py_or_truthy.
Qed.

Lemma rocket_map_entries_witness :
  py_iter (py_or (fetch_json (serving (JArr [rocket_f9; pad_without_id]))
                    "/rockets") (JArr []))
    = Ok [rocket_f9; pad_without_id] /\
  load_rocket_map (serving (JArr [rocket_f9; pad_without_id]))
    = Ok (<[KStr "r9" := JStr "Falcon 9"]> ∅) /\
  (<[KStr "r9" := JStr "Falcon 9"]> (∅ : gmap pykey json)) !! KNone = None.
Proof.
  split; [reflexivity|]. split; [reflexivity|].
  exact (proj1 (proj2 (rocket_map_entries
                         (serving (JArr [rocket_f9; pad_without_id]))
                         [rocket_f9; pad_without_id]
                         (<[KStr "r9" := JStr "Falcon 9"]> ∅)
                         eq_refl eq_refl))).
Defined.

Lemma foldM_rocket_untouched (rockets : list json) (acc m : gmap pykey json)
  (k : pykey) :
  (forall r _id, In r rockets -> py_get r "id" = Ok _id ->
                 truthy _id = true -> hash_key _id <> Ok k) ->
  foldM rocket_step acc rockets = Ok m -> m !! k = acc !! k.
Proof.
  revert acc. induction rockets as [|r rockets IH]; simpl; intros acc Hk Hm.
  - now injection Hm as <-.
  - apply bind_Ok in Hm as (acc' & Hstep & Hm).
    rewrite (IH acc') by (intros; eauto).
    apply rocket_step_inv in Hstep
      as (_id & n & Hid & Hn & [[_ ->]|[Ht (k' & Hh & ->)]]);
      [reflexivity|].
    apply lookup_insert_ne. intros ->. now apply (Hk r _id); auto.
Qed.

(** When several fetched rockets carry the same id, the last one wins:
    the mapping holds, for the id of a rocket that no later rocket
    shares, the name of that rocket (or ["Unknown rocket"] if it has
    none). *)
Theorem rocket_map_last_entry_wins (net : network)
  (before after : list json) (r _id n : json) (k : pykey)
  (m : gmap pykey json) :
  py_iter (py_or (fetch_json net "/rockets") (JArr []))
    = Ok (before ++ r :: after) ->
  load_rocket_map net = Ok m ->
  py_get r "id" = Ok _id -> truthy _id = true -> hash_key _id = Ok k ->
  py_get r "name" = Ok n ->
  (forall r' id', In r' after -> py_get r' "id" = Ok id' ->
                  truthy id' = true -> hash_key id' <> Ok k) ->
  m !! k = Some (py_or n (JStr "Unknown rocket")).
Proof.
  intros Hit Hm Hid Ht Hh Hn Hafter.
  unfold load_rocket_map in Hm. rewrite Hit in Hm. simpl in Hm.
  rewrite foldM_app in Hm. apply bind_Ok in Hm as (mid & _ & Hm).
  simpl in Hm. apply bind_Ok in Hm as (mid' & Hstep & Hm).
  rewrite (foldM_rocket_untouched after mid' m k Hafter Hm).
  unfold rocket_step in Hstep. rewrite Hid, Hn in Hstep. simpl in Hstep.
  rewrite Ht, Hh in Hstep. simpl in Hstep. injection Hstep as <-.
  apply lookup_insert_eq.
Qed.

Lemma rocket_map_last_entry_wins_witness :
  exists m,
    load_rocket_map
      (serving (JArr [JObj [("id", JStr "r9"); ("name", JStr "Falcon 1")];
                      rocket_f9; pad_without_id])) = Ok m /\
    m !! KStr "r9" = Some (py_or (JStr "Falcon 9") (JStr "Unknown rocket")).
Proof.
  eexists. split; [reflexivity|].
  eapply (rocket_map_last_entry_wins
            (serving (JArr [JObj [("id", JStr "r9"); ("name", JStr "Falcon 1")];
                            rocket_f9; pad_without_id]))
            [JObj [("id", JStr "r9"); ("name", JStr "Falcon 1")]]
            [pad_without_id] rocket_f9 (JStr "r9") (JStr "Falcon 9")
            (KStr "r9")); try reflexivity.
  intros r' id' [<-|[]] Hid' Ht. injection Hid' as <-. discriminate.
Defined.

(** ** The launchpad mapping *)

Lemma truthy_app_cons (a b : string) (c : ascii) :
  truthy (JStr (a +:+ String c b)) = true.
Proof. destruct a; reflexivity. Qed.

Lemma pad_display_truthy (p v : json) :
  pad_display p = Ok v -> truthy v = true.
Proof.
  unfold pad_display. intros H.
  destruct (py_get p "name") as [n|]; simpl in H; [|discriminate].
  destruct (py_get p "locality") as [l|]; simpl in H; [|discriminate].
  destruct (py_get p "region") as [r|]; simpl in H; [|discriminate].
  destruct (str_join _ _) as [loc|]; simpl in H; [|discriminate].
  destruct (negb (String.eqb loc "")).
  - destruct (py_str _) as [s|]; simpl in H; [|discriminate].
    injection H as <-. apply truthy_app_cons.
  - injection H as <-. now apply py_or_truthy.
Qed.

Lemma launchpad_step_inv (acc acc' : gmap pykey json) (p : json) :
  launchpad_step acc p = Ok acc' ->
  exists _id v k,
    py_get p "id" = Ok _id /\ pad_display p = Ok v /\
    hash_key _id = Ok k /\ acc' = <[k := v]> acc.
Proof.
  unfold launchpad_step. intros H.
  destruct (py_get p "id") as [_id|]; simpl in H; [|discriminate].
  destruct (pad_display p) as [v|]; simpl in H; [|discriminate].
  destruct (hash_key _id) as [k|] eqn:Hk; simpl in H; [|discriminate].
  injection H as <-. exists _id, v, k. auto.
Qed.

Lemma foldM_launchpad_keeps (pads : list json) (acc m : gmap pykey json)
  (k : pykey) :
  foldM launchpad_step acc pads = Ok m -> is_Some (acc !! k) ->
  is_Some (m !! k).
Proof.
  revert acc. induction pads as [|p pads IH]; simpl; intros acc Hm Hk.
  - now injection Hm as <-.
  - apply bind_Ok in Hm as (acc' & Hstep & Hm). apply (IH acc' Hm).
    apply launchpad_step_inv in Hstep as (_id & v & k' & _ & _ & _ & ->).
    rewrite lookup_insert. destruct (decide (k' = k)); eauto.
Qed.

Lemma foldM_launchpad_entries (pads : list json) (acc m : gmap pykey json) :
  foldM launchpad_step acc pads = Ok m ->
  (forall p, In p pads ->
             exists _id k, py_get p "id" = Ok _id /\ hash_key _id = Ok k /\
                           is_Some (m !! k)) /\
  (forall k v, m !! k = Some v ->
               acc !! k = Some v \/
               exists p _id, In p pads /\ py_get p "id" = Ok _id /\
                             hash_key _id = Ok k /\ pad_display p = Ok v).
Proof.
  revert acc. induction pads as [|p pads IH]; simpl; intros acc Hm.
  - injection Hm as <-. split; [intros ? []|auto].
  - apply bind_Ok in Hm as (acc' & Hstep & Hm).
    destruct (IH acc' Hm) as [Hall Hfrom].
    apply launchpad_step_inv in Hstep as (_id & v & k & Hid & Hv & Hk & ->).
    split.
    + intros q [<-|Hq]; [|now apply Hall].
      exists _id, k. repeat split; auto.
      apply (foldM_launchpad_keeps pads _ m k Hm).
      rewrite lookup_insert_eq. eauto.
    + intros k' v' Hk'.
      destruct (Hfrom k' v' Hk') as [Hacc|(q & i & Hq & H)].
      2:{ right. exists q, i. split; [now right | exact H]. }
      destruct (decide (k = k')) as [->|Hne].
      * rewrite lookup_insert_eq in Hacc. injection Hacc as <-.
        right. exists p, _id. repeat split; auto.
      * left. now rewrite lookup_insert_ne in Hacc.
Qed.

(** When the launchpad loader returns, every fetched launchpad is an
    object with a hashable id and has an entry under that id; and every
    entry holds the label of a fetched launchpad with that id, which is
    never empty. *)
Theorem launchpad_map_entries (net : network) (pads : list json)
  (m : gmap pykey json) :
  py_iter (py_or (fetch_json net "/launchpads") (JArr [])) = Ok pads ->
  load_launchpad_map net = Ok m ->
  (forall p, In p pads ->
             exists _id k, py_get p "id" = Ok _id /\ hash_key _id = Ok k /\
                           is_Some (m !! k)) /\
  (forall k v, m !! k = Some v ->
               exists p _id, In p pads /\ py_get p "id" = Ok _id /\
                             hash_key _id = Ok k /\ pad_display p = Ok v) /\
  (forall k v, m !! k = Some v -> truthy v = true).
Proof.
  intros Hit Hm. unfold load_launchpad_map in Hm. rewrite Hit in Hm.
  simpl in Hm. destruct (foldM_launchpad_entries _ _ _ Hm) as [Hall Hfrom].
  assert (Hentry : forall k v, m !! k = Some v ->
            exists p _id, In p pads /\ py_get p "id" = Ok _id /\
                          hash_key _id = Ok k /\ pad_display p = Ok v).
  { intros k v Hk. destruct (Hfrom k v Hk) as [Hempty|H]; [|exact H].
    now rewrite lookup_empty in Hempty. }
  split; [exact Hall|]. split; [exact Hentry|].
  intros k v Hk. destruct (Hentry k v Hk) as (p & _ & _ & _ & _ & Hv).
  now apply (pad_display_truthy p).
Qed.

Lemma launchpad_map_entries_witness :
  py_iter (py_or (fetch_json (serving (JArr [JObj pad_region_only_fields]))
                    "/launchpads") (JArr []))
    = Ok [JObj pad_region_only_fields] /\
  load_launchpad_map (serving (JArr [JObj pad_region_only_fields]))
    = Ok (<[KStr "p2" := JStr "KSC LC 39A (Florida)"]> ∅) /\
  exists _id k,
    py_get (JObj pad_region_only_fields) "id" = Ok _id /\
    hash_key _id = Ok k /\
    is_Some ((<[KStr "p2" := JStr "KSC LC 39A (Florida)"]>
                (∅ : gmap pykey json)) !! k).
Proof.
  split; [reflexivity|]. split; [reflexivity|].
  apply (proj1 (launchpad_map_entries
                  (serving (JArr [JObj pad_region_only_fields]))
                  [JObj pad_region_only_fields]
                  (<[KStr "p2" := JStr "KSC LC 39A (Florida)"]> ∅)
                  eq_refl eq_refl)).
  now left.
Defined.

(** ** The past loader under different limits *)

Lemma get_past_launches_inv (net : network) (limit : Z) (res : list json) :
  get_past_launches net limit = Ok res ->
  exists sorted,
    py_sort date_key true (py_or (fetch_json net "/launches/past") (JArr []))
      = Ok sorted /\
    res = slice_to limit sorted.
Proof.
  unfold get_past_launches. intros H.
  apply bind_Ok in H as (sorted & Hs & H). injection H as <-. eauto.
Qed.

Lemma slice_to_nonneg {A : Type} (stop : Z) (l : list A) :
  0 <= stop -> slice_to stop l = firstn (Z.to_nat stop) l.
Proof. intros H. unfold slice_to. apply Z.leb_le in H. now rewrite H. Qed.

(** On one state of the network, the past launches returned for a limit
    are the first ones of those returned for any greater limit, and are
    never more than the limit: the 20 recent launches of the menu are the
    first 20 of the 50 it searches. *)
Theorem past_limits_nest (net : network) (n m : Z) (a b : list json) :
  0 <= n <= m ->
  get_past_launches net n = Ok a ->
  get_past_launches net m = Ok b ->
  a = firstn (Z.to_nat n) b /\ Z.of_nat (List.length a) <= n.
Proof.
  intros Hnm (sa & Hsa & ->)%get_past_launches_inv
    (sb & Hsb & ->)%get_past_launches_inv.
  rewrite Hsa in Hsb. injection Hsb as <-.
  rewrite !slice_to_nonneg by lia. split.
  - rewrite List.firstn_firstn. f_equal. lia.
  - rewrite length_firstn. lia.
Qed.

Lemma past_limits_nest_witness :
  0 <= 1 <= 2 /\
  get_past_launches (serving (JArr [launch_a; launch_b])) 1 = Ok [launch_b] /\
  get_past_launches (serving (JArr [launch_a; launch_b])) 2
    = Ok [launch_b; launch_a] /\
  [launch_b] = firstn (Z.to_nat 1) [launch_b; launch_a].
Proof.
  split; [lia|]. split; [reflexivity|]. split; [reflexivity|].
  apply (past_limits_nest (serving (JArr [launch_a; launch_b])) 1 2
           [launch_b] [launch_b; launch_a]); [lia | reflexivity..].
Defined.





(** ** Ascending and descending order *)

Section SortedUnique.

Variables (A : Type) (R : A -> A -> Prop).

(** Two sorted arrangements of the same elements are equal when no two
    different elements are each in order before the other. *)
Lemma sorted_perm_unique (l1 l2 : list A) :
  StronglySorted R l1 -> StronglySorted R l2 -> Permutation l1 l2 ->
  (forall x y, In x l1 -> In y l1 -> R x y -> R y x -> x = y) ->
  l1 = l2.
Proof.
  intros H1. revert l2.
  induction H1 as [|x l1 Hs1 IH Hx]; intros l2 H2 Hp Hanti.
  - now apply Permutation_nil in Hp.
  - destruct H2 as [|y l2 Hs2 Hy].
    + apply Permutation_sym, Permutation_nil in Hp. discriminate.
    + assert (Hxy : x = y).
      { assert (Hx2 : In x (y :: l2))
          by (apply (Permutation_in _ Hp); now left).
        assert (Hy1 : In y (x :: l1))
          by (apply (Permutation_in _ (Permutation_sym Hp)); now left).
        destruct Hx2 as [->|Hx2]; [reflexivity|].
        destruct Hy1 as [->|Hy1]; [reflexivity|].
        rewrite List.Forall_forall in Hx, Hy.
        apply Hanti; simpl; auto. }
      subst y. f_equal. apply IH; [exact Hs2 | |].
      * now apply Permutation_cons_inv in Hp.
      * intros a b Ha Hb. apply Hanti; simpl; auto.
Qed.

End SortedUnique.

Lemma string_ltb_false_antisym (a b : string) :
  String.ltb a b = false -> String.ltb b a = false -> a = b.
Proof.
  intros H1 H2. apply String.leb_antisym; now apply string_leb_ltb.
Qed.

Lemma sort_dates_perm_unique (l1 l2 : list json) :
  Permutation l1 l2 ->
  (forall a b, In a l1 -> In b l1 -> date_text a = date_text b -> a = b) ->
  sort_by date_text String.ltb l1 = sort_by date_text String.ltb l2.
Proof.
  intros Hp Hinj.
  apply (sorted_perm_unique _ (ordered date_text String.ltb)).
  - apply sort_by_sorted;
      [exact string_ltb_asym | exact string_ltb_false_trans].
  - apply sort_by_sorted;
      [exact string_ltb_asym | exact string_ltb_false_trans].
  - now rewrite !sort_by_perm.
  - intros x y Hx Hy Hxy Hyx.
    apply (Permutation_in _ (sort_by_perm _ _ _ _ _)) in Hx, Hy.
    apply Hinj; auto. now apply string_ltb_false_antisym.
Qed.

(** When no two different records share a timestamp key, sorting with
    [reverse=True] gives exactly the ascending order reversed.  (With
    shared keys it does not: ties keep their fetched order in both.) *)
Theorem descending_sort_reverses_distinct_keys (l : list json) :
  forallb date_ok l = true ->
  (forall a b, In a l -> In b l -> date_key a = date_key b -> a = b) ->
  exists asc,
    list_sort date_key false l = Ok asc /\
    list_sort date_key true l = Ok (rev asc).
Proof.
  intros Hl Hinj. exists (sort_by date_text String.ltb l).
  split; [now apply list_sort_dates|].
  rewrite list_sort_dates by exact Hl. do 2 f_equal.
  apply sort_dates_perm_unique.
  - symmetry. apply Permutation_rev.
  - intros a b Ha%in_rev Hb%in_rev Hab. apply Hinj; auto.
    rewrite forallb_forall in Hl.
    now rewrite !date_key_ok, Hab by auto.
Qed.

Lemma descending_sort_reverses_distinct_keys_witness :
  forallb date_ok [launch_a; launch_b] = true /\
  exists asc,
    list_sort date_key false [launch_a; launch_b] = Ok asc /\
    list_sort date_key true [launch_a; launch_b] = Ok (rev asc).
Proof.
  split; [reflexivity|].
  apply descending_sort_reverses_distinct_keys; [reflexivity|].
  intros a b [<-|[<-|[]]] [<-|[<-|[]]]; try reflexivity; discriminate.
Defined.

(** Two different records with one key: the descending order is not the
    reverse of the ascending one. *)
Example descending_sort_keeps_ties :
  list_sort date_key false [launch_undated; JObj []]
    = Ok [launch_undated; JObj []] /\
  list_sort date_key true [launch_undated; JObj []]
    = Ok [launch_undated; JObj []].
Proof. split; reflexivity. Qed.

(** ** The table view and the detail view *)



Section ViewExtras.

Variable datetime : Type.
Variable fromisoformat : string -> option datetime.
Variable strftime : datetime -> string -> option string.
Variable textwrap_fill : string -> nat -> string.

(** The table has one row per launch, in the order of the launches and
    numbered from 1: whenever the table view returns, its row at position
    [i] (from 0) carries the number [i + 1] and the name, date and outcome
    of the launch at position [i].  For no launches it returns the "no
    launches" panel without fetching anything. *)
Theorem table_rows_follow_launches (net : network) (title : string)
  (launches : list json) (view : table_view) :
  show_launch_table fromisoformat strftime net title launches = Ok view ->
  (launches = [] /\ view = NoLaunchesPanel title) \/
  (exists rows,
      launches <> [] /\ view = LaunchTable title rows /\
      List.length rows = List.length launches /\
      forall i row,
        rows !! i = Some row ->
        row_idx row = Z.of_nat i + 1 /\
        exists launch n d s,
          launches !! i = Some launch /\
          py_get launch "name" = Ok n /\
          row_name row = py_or n (JStr "(no name)") /\
          py_get launch "date_utc" = Ok d /\
          row_date row = format_datetime fromisoformat strftime d /\
          py_get launch "success" = Ok s /\
          row_success row = success_cell s).
Proof.
  intros [[-> ->]|(rm & pm & rows & Hne & -> & _ & _ & Hrows)]
    %show_launch_table_inv; [now left|].
  right. exists rows. split; [exact Hne|]. split; [reflexivity|].
  split; [exact (table_rows_length _ _ _ rm pm _ 1 _ Hrows)|].
  intros i row Hi.
  destruct (table_rows_inv _ _ _ rm pm _ _ _ Hrows i row Hi)
    as (l & Hl & Hrow).
  apply table_row_of_inv in Hrow as (Hidx & n & d & s & H).
  split; [lia|]. exists l, n, d, s. split; [exact Hl | exact H].
Qed.

Lemma success_cell_cases (s : json) :
  (success_cell s = "[green]✔[/green]" <-> s = JBool true) /\
  (success_cell s = "[red]✖[/red]" <-> s = JBool false) /\
  (success_cell s = "[yellow]?[/yellow]" <->
   s <> JBool true /\ s <> JBool false).
Proof.
  destruct s as [|[|]| | | |]; simpl;
    repeat split; try discriminate; try reflexivity;
    try (intros [? ?]; congruence); try (intros ?; congruence).
Qed.

Lemma status_line_cases (s : json) :
  (status_line s = "[green]Success[/green]" <-> s = JBool true) /\
  (status_line s = "[red]Failure[/red]" <-> s = JBool false) /\
  (status_line s = "[yellow]Unknown / upcoming[/yellow]" <->
   s <> JBool true /\ s <> JBool false).
Proof.
  destruct s as [|[|]| | | |]; simpl;
    repeat split; try discriminate; try reflexivity;
    try (intros [? ?]; congruence); try (intros ?; congruence).
Qed.

(** The outcome of a launch is shown in three states that never merge:
    in a table row and in the detail panel, the success mark appears
    exactly when [success] is the boolean [true], the failure mark exactly
    when it is the boolean [false], and the unknown mark in every other
    case (absent, null, a number, a string). *)
Theorem outcome_is_tristate (net : network) (rm pm : gmap pykey json)
  (idx : Z) (launch s : json) :
  py_get launch "success" = Ok s ->
  (forall row,
      table_row_of fromisoformat strftime rm pm idx launch = Ok row ->
      (row_success row = "[green]✔[/green]" <-> s = JBool true) /\
      (row_success row = "[red]✖[/red]" <-> s = JBool false) /\
      (row_success row = "[yellow]?[/yellow]" <->
       s <> JBool true /\ s <> JBool false)) /\
  (forall v,
      show_launch_details fromisoformat strftime textwrap_fill net launch
        = Ok v ->
      (det_status v = "[green]Success[/green]" <-> s = JBool true) /\
      (det_status v = "[red]Failure[/red]" <-> s = JBool false) /\
      (det_status v = "[yellow]Unknown / upcoming[/yellow]" <->
       s <> JBool true /\ s <> JBool false)).
Proof.
  intros Hs. split.
  - intros row (_ & n & d & s' & _ & _ & _ & _ & Hs' & ->)%table_row_of_inv.
    rewrite Hs in Hs'. injection Hs' as <-. apply success_cell_cases.
  - intros v (n & s' & dt & _ & _ & Hs' & -> & _)%show_launch_details_inv.
    rewrite Hs in Hs'. injection Hs' as <-. apply status_line_cases.
Qed.


(** A reference loader that raises takes the views with it: when the
    rocket loader raises, or returns and the launchpad loader raises, the
    table view of any non-empty list and the detail view of any launch
    raise the same exception. *)
Theorem views_fail_with_reference_loaders (net : network) (e : exn) :
  load_rocket_map net = Raise e \/
  (exists rm, load_rocket_map net = Ok rm /\
              load_launchpad_map net = Raise e) ->
  (forall title launch rest,
      show_launch_table fromisoformat strftime net title (launch :: rest)
        = Raise e) /\
  (forall launch,
      show_launch_details fromisoformat strftime textwrap_fill net launch
        = Raise e).
Proof.
  unfold show_launch_table, show_launch_details.
  intros [Hr|(rm & Hr & Hp)]; split; intros; rewrite Hr; simpl;
    try rewrite Hp; reflexivity.
Qed.

End ViewExtras.

Lemma table_rows_follow_launches_witness :
  exists view,
    show_launch_table sample_fromisoformat sample_strftime
      unreachable "Recent launches" [launch_b; launch_a] = Ok view /\
    exists rows,
      view = LaunchTable "Recent launches" rows /\
      List.length rows = 2%nat.
Proof.
  eexists. split; [reflexivity|].
  destruct (table_rows_follow_launches unit sample_fromisoformat
              sample_strftime
              unreachable "Recent launches" [launch_b; launch_a] _ eq_refl)
    as [[Hnil _]|(rows & _ & Hview & Hlen & _)]; [discriminate|].
  exists rows. split; assumption.
Defined.

Lemma outcome_is_tristate_witness :
  py_get (JObj [("name", JStr "CRS-20"); ("success", JBool true)]) "success"
    = Ok (JBool true) /\
  forall row,
    table_row_of sample_fromisoformat sample_strftime ∅ ∅ 1
      (JObj [("name", JStr "CRS-20"); ("success", JBool true)]) = Ok row ->
    (row_success row = "[green]✔[/green]" <-> JBool true = JBool true).
Proof.
  split; [reflexivity|]. intros row Hrow.
  apply (proj1 (outcome_is_tristate unit sample_fromisoformat sample_strftime
                  sample_fill unreachable ∅ ∅ 1
                  (JObj [("name", JStr "CRS-20"); ("success", JBool true)])
                  (JBool true) eq_refl) row Hrow).
Defined.


Lemma views_fail_with_reference_loaders_witness :
  load_rocket_map (serving (JObj [("error", JStr "Not Found")]))
    = Raise AttributeError /\
  show_launch_details sample_fromisoformat sample_strftime sample_fill
    (serving (JObj [("error", JStr "Not Found")])) launch_a
    = Raise AttributeError.
Proof.
  split; [reflexivity|].
  apply (views_fail_with_reference_loaders unit sample_fromisoformat
           sample_strftime sample_fill
           (serving (JObj [("error", JStr "Not Found")]))
           AttributeError).
  now left.
Defined.

(** ** Choosing a launch at the prompt *)

Lemma add_printed_Done {A : Type} (msg : string) (i : interaction A)
  (v : A) (rest out : list string) :
  add_printed msg i = Done v rest out ->
  exists out', i = Done v rest out' /\ out = msg :: out'.
Proof. destruct i; simpl; intros [= <- <- <-]; eauto. Qed.

Lemma choose_loop_Done (launches : list json) (answers : list string) :
  forall v rest out,
    choose_loop launches answers = Ok (Done v rest out) ->
    exists skipped choice,
      answers = skipped ++ choice :: rest /\
      List.length out = List.length skipped /\
      Forall (rejected launches) skipped /\
      ((str_strip choice = Ok "" /\ v = JNull) \/
       (exists idx,
           py_int choice = Ok idx /\
           1 <= idx <= Z.of_nat (List.length launches) /\
           launches !! Z.to_nat (idx - 1) = Some v)).
Proof.
  induction answers as [|a answers IH]; simpl; intros v rest out H;
    [discriminate|].
  destruct (str_strip a) as [stripped|] eqn:Hstrip; simpl in H;
    [|discriminate].
  destruct (String.eqb_spec stripped "") as [->|Hne].
  { injection H as <- <- <-. exists [], a.
    split; [reflexivity|]. split; [reflexivity|]. split; [constructor|].
    now left. }
  assert (Hblank : exists q, str_strip a = Ok q /\ q <> "") by eauto.
  destruct (py_isdigit a) as [digits|] eqn:Hd; simpl in H; [|discriminate].
  destruct digits; simpl in H.
  - destruct (py_int a) as [idx|] eqn:Hidx; simpl in H; [|discriminate].
    destruct (Z.leb 1 idx && Z.leb idx (Z.of_nat (List.length launches)))
      eqn:Hrange.
    + injection H as <- <- <-.
      apply andb_prop in Hrange as [H1%Z.leb_le H2%Z.leb_le].
      exists [], a.
      split; [reflexivity|]. split; [reflexivity|]. split; [constructor|].
      right. exists idx. split; [exact Hidx|]. split; [lia|].
      destruct (lookup_lt_is_Some_2 launches (Z.to_nat (idx - 1)))
        as [x Hx]; [lia|].
      rewrite Hx. f_equal. symmetry. now apply nth_lookup_Some.
    + apply bind_Ok in H as (i & Hi & H). injection H as H.
      apply add_printed_Done in H as (out' & -> & ->).
      destruct (IH _ _ _ Hi) as (skipped & choice & -> & Hlen & Hrej & Hc).
      exists (a :: skipped), choice.
      split; [reflexivity|]. split; [simpl; congruence|].
      split; [|exact Hc].
      constructor; [|exact Hrej]. split; [exact Hblank|].
      right. exists idx. split; [exact Hidx|].
      intros [H1%Z.leb_le H2%Z.leb_le]. now rewrite H1, H2 in Hrange.
  - apply bind_Ok in H as (i & Hi & H). injection H as H.
    apply add_printed_Done in H as (out' & -> & ->).
    destruct (IH _ _ _ Hi) as (skipped & choice & -> & Hlen & Hrej & Hc).
    exists (a :: skipped), choice.
    split; [reflexivity|]. split; [simpl; congruence|].
    split; [|exact Hc].
    constructor; [|exact Hrej]. split; [exact Hblank|]. now left.
Qed.

(** What [choose_launch] returns, it returns for one answer: every answer
    before it was turned down with one message, and that answer is blank
    (the result is [None]) or a number from 1 to the number of launches
    (the result is the launch at that position).  So the result is [None]
    or one of the launches, and no index is ever out of range.  With no
    launches it returns [None] at once, reading no answer. *)
Theorem choose_launch_returns (launches : list json) (answers : list string)
  (v : json) (rest out : list string) :
  choose_launch launches answers = Ok (Done v rest out) ->
  (launches = [] /\ v = JNull /\ rest = answers /\ out = []) \/
  (launches <> [] /\
   (v = JNull \/ In v launches) /\
   exists skipped choice,
     answers = skipped ++ choice :: rest /\
     List.length out = List.length skipped /\
     Forall (rejected launches) skipped /\
     ((str_strip choice = Ok "" /\ v = JNull) \/
      (exists idx,
          py_int choice = Ok idx /\
          1 <= idx <= Z.of_nat (List.length launches) /\
          launches !! Z.to_nat (idx - 1) = Some v))).
Proof.
  unfold choose_launch. destruct launches as [|l0 ls].
  - intros [= <- <- <-]. now left.
  - intros H. right. split; [discriminate|].
    destruct (choose_loop_Done _ _ _ _ _ H)
      as (skipped & choice & Heq & Hlen & Hrej & Hc).
    split.
    + destruct Hc as [[_ ->]|(idx & _ & _ & Hv)]; [now left|].
      right. apply list_elem_of_In. eapply list_elem_of_lookup_2, Hv.
    + exists skipped, choice. auto.
Qed.

Lemma choose_launch_returns_witness :
  choose_launch [launch_a; launch_b] ["two"; "7"; "2"; "1"]
    = Ok (Done launch_b ["1"]
            [invalid_number_message; out_of_range_message 2]) /\
  (launch_b = JNull \/ In launch_b [launch_a; launch_b]).
Proof.
  split; [reflexivity|].
  destruct (choose_launch_returns [launch_a; launch_b]
              ["two"; "7"; "2"; "1"] launch_b ["1"]
              [invalid_number_message; out_of_range_message 2] eq_refl)
    as [(Hnil & _)|(_ & Hin & _)]; [discriminate | exact Hin].
Defined.

Lemma digit_parses (c : ascii) (d : Decimal.uint) :
  is_digit c = true -> exists d', uint_of_char c (Some d) = Some d'.
Proof.
  destruct c as [[] [] [] [] [] [] [] []]; try discriminate; simpl; eauto.
Qed.

Lemma digits_parse (s : string) :
  forallb is_digit (list_ascii_of_string s) = true ->
  exists d, NilEmpty.uint_of_string s = Some d.
Proof.
  induction s as [|c s IH]; simpl; [eauto|].
  intros [Hc Hs]%andb_prop. destruct (IH Hs) as [d ->].
  now apply digit_parses.
Qed.

Lemma existsb_non_digit (cs : list ascii) :
  forallb is_ascii cs = true ->
  existsb (fun c => is_ascii c && negb (is_digit c)) cs
  = negb (forallb is_digit cs).
Proof.
  induction cs as [|x cs IH]; [reflexivity|]. simpl.
  intros [Hx Hcs]%andb_prop. rewrite (IH Hcs), Hx. simpl.
  now destruct (is_digit x).
Qed.

Lemma plain_isdigit (s : string) :
  forallb is_ascii (list_ascii_of_string s) = true ->
  py_isdigit s = Ok (forallb is_digit (list_ascii_of_string s)
                     && negb (String.eqb s "")).
Proof.
  unfold py_isdigit. destruct s as [|c s]; [reflexivity|].
  intros Hascii.
  change (String.eqb (String c s) "") with false. rewrite andb_true_r.
  change (list_ascii_of_string (String c s))
    with (c :: list_ascii_of_string s) in *.
  cbv beta iota zeta. rewrite (existsb_non_digit _ Hascii).
  now destruct (forallb is_digit (c :: list_ascii_of_string s)).
Qed.

(** Answers typed in ASCII never make [choose_launch] raise: each one is
    accepted, or turned down with a message and asked again. *)
Theorem choose_launch_total_on_plain_answers (launches : list json)
  (answers : list string) :
  forallb plain_answer answers = true ->
  exists i, choose_launch launches answers = Ok i.
Proof.
  intros Hplain. unfold choose_launch. destruct launches as [|l0 ls]; [eauto|].
  generalize (l0 :: ls) as launches. intros launches.
  induction answers as [|a answers IH]; simpl; [eauto|].
  simpl in Hplain. apply andb_prop in Hplain as [Ha Hrest].
  destruct (IH Hrest) as [i Hi].
  unfold plain_answer in Ha. apply andb_prop in Ha as [Hascii Hlen].
  rewrite (str_strip_ascii a Hascii). simpl.
  destruct (String.eqb (ascii_strip a) ""); [eauto|].
  rewrite (plain_isdigit a Hascii).
  destruct (forallb is_digit (list_ascii_of_string a)) eqn:Hdigits; simpl.
  2:{ rewrite Hi. simpl. eauto. }
  destruct (String.eqb a ""); simpl; [rewrite Hi; simpl; eauto|].
  unfold py_int. apply Nat.leb_le in Hlen.
  assert (Hshort : (4300 <? String.length a)%nat = false)
    by (apply Nat.ltb_ge; exact Hlen).
  rewrite Hshort. destruct (digits_parse a Hdigits) as [d ->]. simpl.
  destruct (_ && _); [eauto|]. rewrite Hi. simpl. eauto.
Qed.

Lemma choose_launch_total_on_plain_answers_witness :
  forallb plain_answer ["abc"; "12x"; "99"] = true /\
  exists i, choose_launch [launch_a] ["abc"; "12x"; "99"] = Ok i.
Proof.
  split; [reflexivity|].
  apply choose_launch_total_on_plain_answers. reflexivity.
Defined.

Lemma uint_digits (d : Decimal.uint) :
  forallb is_digit (list_ascii_of_string (NilEmpty.string_of_uint d)) = true.
Proof. induction d; simpl; auto. Qed.

Lemma str_of_nat_uint (n : nat) :
  exists d,
    d <> Decimal.Nil /\ Z.to_int (Z.of_nat n) = Decimal.Pos d /\
    str_of_nat n = NilEmpty.string_of_uint d.
Proof.
  unfold str_of_nat. destruct (Z.of_nat n) as [|p|p] eqn:Hn; [| |lia].
  - exists (Decimal.D0 Decimal.Nil). repeat split. discriminate.
  - pose proof (DecimalPos.Unsigned.to_uint_nonnil p) as Hnil.
    exists (Pos.to_uint p). simpl. repeat split; [exact Hnil|].
    unfold NilZero.string_of_uint.
    destruct (Pos.to_uint p); [contradiction | reflexivity..].
Qed.

(** [int(str(n)) == n] for a length [n]. *)
Lemma py_int_str_of_nat (n : nat) :
  (String.length (str_of_nat n) <= 4300)%nat ->
  py_int (str_of_nat n) = Ok (Z.of_nat n).
Proof.
  intros Hlen. unfold py_int.
  assert (Hshort : (4300 <? String.length (str_of_nat n))%nat = false)
    by (apply Nat.ltb_ge; exact Hlen).
  rewrite Hshort.
  destruct (str_of_nat_uint n) as (d & _ & Hd & ->).
  rewrite NilEmpty.usu. f_equal.
  change (Z.of_uint d) with (Z.of_int (Decimal.Pos d)).
  rewrite <- Hd. apply DecimalZ.of_to.
Qed.

Lemma digit_is_ascii (c : ascii) : is_digit c = true -> is_ascii c = true.
Proof.
  unfold is_digit, is_ascii. intros [_ H%Nat.leb_le]%andb_prop.
  apply Nat.ltb_lt. lia.
Qed.

Lemma uint_string_nonempty (d : Decimal.uint) :
  d <> Decimal.Nil -> NilEmpty.string_of_uint d <> "".
Proof. destruct d; [contradiction | discriminate..]. Qed.

Lemma str_of_nat_isdigit (n : nat) : py_isdigit (str_of_nat n) = Ok true.
Proof.
  destruct (str_of_nat_uint n) as (d & Hnil & _ & ->).
  rewrite plain_isdigit.
  - rewrite uint_digits.
    apply uint_string_nonempty, String.eqb_neq in Hnil. now rewrite Hnil.
  - apply forallb_forall. intros c Hc. apply digit_is_ascii.
    pose proof (uint_digits d) as Hd. rewrite forallb_forall in Hd. auto.
Qed.

Lemma str_of_nat_ascii (n : nat) : ascii_only (str_of_nat n) = true.
Proof.
  destruct (str_of_nat_uint n) as (d & _ & _ & ->).
  apply forallb_forall. intros c Hc. apply digit_is_ascii.
  pose proof (uint_digits d) as Hd. rewrite forallb_forall in Hd. auto.
Qed.

Lemma str_of_nat_not_blank (n : nat) :
  exists stripped, str_strip (str_of_nat n) = Ok stripped /\ stripped <> "".
Proof.
  exists (ascii_strip (str_of_nat n)).
  split; [apply str_strip_ascii, str_of_nat_ascii|].
  apply ascii_strip_not_blank.
  destruct (str_of_nat_uint n) as (d & Hnil & _ & ->).
  pose proof (uint_digits d) as Hd. unfold blank.
  destruct (list_ascii_of_string (NilEmpty.string_of_uint d))
    as [|c cs] eqn:Hcs.
  - destruct d; try discriminate. contradiction.
  - simpl in *. apply andb_prop in Hd as [Hc _].
    replace (is_white c) with false; [reflexivity|].
    destruct c as [[] [] [] [] [] [] [] []]; try discriminate; reflexivity.
Qed.

(** Typing the number a row carries selects the launch of that row: for
    [1 <= n <= len(launches)], the answer [str(n)] makes [choose_launch]
    return the launch at position [n - 1] at once, with no message. *)
Theorem typing_row_number_selects_launch (launches : list json) (n : nat)
  (rest : list string) :
  (1 <= n <= List.length launches)%nat ->
  (String.length (str_of_nat n) <= 4300)%nat ->
  exists launch,
    launches !! (n - 1)%nat = Some launch /\
    choose_launch launches (str_of_nat n :: rest) = Ok (Done launch rest []).
Proof.
  intros Hn Hlen.
  destruct (lookup_lt_is_Some_2 launches (n - 1)) as [launch Hl]; [lia|].
  exists launch. split; [exact Hl|].
  unfold choose_launch. destruct launches as [|l0 ls]; [simpl in Hn; lia|].
  generalize dependent (l0 :: ls). intros launches Hn Hl. simpl.
  destruct (str_of_nat_not_blank n) as (stripped & -> & Hb).
  apply String.eqb_neq in Hb. simpl.
  rewrite Hb, str_of_nat_isdigit. simpl.
  rewrite py_int_str_of_nat by exact Hlen. simpl.
  assert (Hrange : Z.leb 1 (Z.of_nat n)
                   && Z.leb (Z.of_nat n) (Z.of_nat (List.length launches))
                   = true).
  { apply andb_true_intro. split; apply Z.leb_le; lia. }
  rewrite Hrange.
  replace (Z.to_nat (Z.of_nat n - 1)) with (n - 1)%nat by lia.
  now rewrite (nth_lookup_Some _ _ JNull _ Hl).
Qed.

Lemma typing_row_number_selects_launch_witness :
  (1 <= 2 <= List.length [launch_a; launch_b])%nat /\
  (String.length (str_of_nat 2) <= 4300)%nat /\
  choose_launch [launch_a; launch_b] [str_of_nat 2; "1"]
    = Ok (Done launch_b ["1"] []).
Proof.
  assert (H1 : (1 <= 2 <= List.length [launch_a; launch_b])%nat)
    by (simpl; lia).
  assert (H2 : (String.length (str_of_nat 2) <= 4300)%nat)
    by (vm_compute; lia).
  split; [exact H1|]. split; [exact H2|].
  destruct (typing_row_number_selects_launch [launch_a; launch_b] 2 ["1"]
              H1 H2) as (launch & Hl & Hc).
  injection Hl as <-. exact Hc.
Defined.

(** ** More on the search *)


Lemma filterM_idempotent {A : Type} (f : A -> result bool) (l m : list A) :
  filterM f l = Ok m -> filterM f m = Ok m.
Proof.
  revert m. induction l as [|y l IH]; simpl; intros m H.
  - now injection H as <-.
  - apply bind_Ok in H as (b & Hb & H).
    apply bind_Ok in H as (ys & Hys & H). injection H as <-.
    destruct b; [|now apply IH].
    simpl. rewrite Hb, (IH ys Hys). reflexivity.
Qed.





Lemma search_launches_inv (launches : list json) (answer : string)
  (o : search_outcome) :
  search_launches launches answer = Ok o ->
  launches <> [] ->
  exists query,
    str_strip answer = Ok query /\
    (query = "" /\ o = NoSearch \/
     query <> "" /\
     exists query_lower matches,
       str_lower query = Ok query_lower /\
       filterM (name_matches query_lower) launches = Ok matches /\
       selected o = matches /\
       o = match matches with
           | [] => NoMatches query
           | _ => Matches query matches
           end).
Proof.
  unfold search_launches. intros H Hne.
  destruct launches as [|l0 ls]; [contradiction|].
  apply bind_Ok in H as (query & Hq & H). exists query. split; [exact Hq|].
  destruct (String.eqb_spec query "") as [->|Hnq].
  - left. injection H as <-. auto.
  - right. split; [exact Hnq|].
    apply bind_Ok in H as (query_lower & Hl & H).
    apply bind_Ok in H as (matches & Hm & H).
    exists query_lower, matches. split; [exact Hl|]. split; [exact Hm|].
    destruct matches.
    + apply bind_Ok in H as (u & _ & H). injection H as <-. auto.
    + injection H as <-. auto.
Qed.






(** Searching again among the launches a search selected, with the same
    answer, selects all of them again. *)
Theorem search_of_matches_is_stable (launches matches : list json)
  (answer query : string) :
  search_launches launches answer = Ok (Matches query matches) ->
  search_launches matches answer = Ok (Matches query matches).
Proof.
  intros H.
  assert (Hne : launches <> []) by (intros ->; discriminate).
  apply search_launches_inv in H as (q & Hq & H); [|exact Hne].
  destruct H as [[_ ?]|(Hnq & ql & m & Hl & Hm & _ & Ho)]; [discriminate|].
  destruct m as [|m0 ms]; [discriminate|]. injection Ho as -> ->.
  unfold search_launches. cbv beta iota. rewrite Hq, bind_ret.
  apply String.eqb_neq in Hnq. rewrite Hnq, Hl, bind_ret.
  rewrite (filterM_idempotent _ _ _ Hm). reflexivity.
Qed.

Lemma search_of_matches_is_stable_witness :
  search_launches [launch_a; launch_b] "crs" = Ok (Matches "crs" [launch_b]) /\
  search_launches [launch_b] "crs" = Ok (Matches "crs" [launch_b]).
Proof.
  split; [reflexivity|].
  apply (search_of_matches_is_stable [launch_a; launch_b] [launch_b]
           "crs" "crs" eq_refl).
Defined.

(** ** The menu loop *)

Lemma get_past_launches_length (net : network) (limit : Z) (res : list json) :
  0 <= limit -> get_past_launches net limit = Ok res ->
  Z.of_nat (List.length res) <= limit.
Proof.
  intros Hl (sorted & _ & ->)%get_past_launches_inv.
  rewrite slice_to_nonneg by exact Hl. rewrite length_firstn. lia.
Qed.



Lemma choose_launch_rest (launches : list json) (answers : list string)
  (v : json) (rest out : list string) :
  choose_launch launches answers = Ok (Done v rest out) ->
  (List.length rest <= List.length answers)%nat.
Proof.
  unfold choose_launch. destruct launches as [|l0 ls].
  - intros [= _ <- _]. lia.
  - intros (skipped & choice & -> & _)%choose_loop_Done.
    rewrite length_app. simpl. lia.
Qed.

Section SessionProps.

Variable datetime : Type.
Variable fromisoformat : string -> option datetime.
Variable strftime : datetime -> string -> option string.
Variable textwrap_fill : string -> nat -> string.

Lemma browse_rest (net_of : nat -> network) (title : string)
  (launches : list json) (clock clock' : nat) (answers rest : list string)
  (u : unit) :
  browse fromisoformat strftime textwrap_fill net_of title launches clock
    answers
    = Ok (Finished u clock' rest) ->
  (List.length rest <= List.length answers)%nat.
Proof.
  unfold browse. intros H.
  apply bind_Ok in H as (view & _ & H).
  apply bind_Ok in H as (c & Hc & H).
  destruct c as [chosen rest0 out|out]; [|discriminate].
  apply choose_launch_rest in Hc.
  destruct (truthy chosen).
  - apply bind_Ok in H as (d & _ & H). injection H as _ _ <-. exact Hc.
  - injection H as _ _ <-. exact Hc.
Qed.

Lemma search_session_rest (net_of : nat -> network) (launches : list json)
  (clock clock' : nat) (answers rest : list string) (u : unit) :
  search_session fromisoformat strftime textwrap_fill net_of launches clock
    answers
    = Ok (Finished u clock' rest) ->
  (List.length rest <= List.length answers)%nat.
Proof.
  unfold search_session. destruct launches as [|l0 ls].
  - intros [= _ _ <-]. lia.
  - destruct answers as [|a answers]; [discriminate|]. intros H.
    apply bind_Ok in H as (o & _ & H). simpl.
    destruct o; try (injection H as _ _ <-; lia).
    apply browse_rest in H. lia.
Qed.

Lemma menu_step_inv (net_of : nat -> network) (st st' : menu_state)
  (clock : nat) (choice : string) (rest : list string) (p : progress bool) :
  menu_step fromisoformat strftime textwrap_fill net_of st clock choice rest
    = Ok (st', p) ->
  (choice = "2" /\
   get_past_launches (net_of clock) 20 = Ok (past_cache st')) \/
  ((choice = "3" \/ choice = "4") /\
   get_past_launches (net_of clock) 50 = Ok (past_cache st')) \/
  past_cache st' = past_cache st.
Proof.
  unfold menu_step. intros H.
  destruct (String.eqb_spec choice "0"); [injection H as <- _; auto|].
  destruct (String.eqb_spec choice "1").
  { apply bind_Ok in H as (up & _ & H).
    apply bind_Ok in H as (q & _ & H).
    destruct q; injection H as <- _; auto. }
  destruct (String.eqb_spec choice "2").
  { apply bind_Ok in H as (past & Hpast & H).
    apply bind_Ok in H as (q & _ & H).
    destruct q; injection H as <- _; auto. }
  destruct (String.eqb_spec choice "3").
  { destruct (past_cache st) as [|c0 cs] eqn:Hcache.
    - apply bind_Ok in H as (past & Hpast & H).
      apply bind_Ok in H as (q & _ & H).
      destruct q; injection H as <- _; auto.
    - apply bind_Ok in H as (q & _ & H).
      destruct q; injection H as <- _; auto. }
  destruct (String.eqb_spec choice "4").
  { apply bind_Ok in H as (past & Hpast & H).
    apply bind_Ok in H as (up & _ & H). injection H as <- _. auto. }
  injection H as <- _. auto.
Qed.

Lemma menu_step_rest (net_of : nat -> network) (st st' : menu_state)
  (clock clock' : nat) (choice : string) (rest rest' : list string)
  (b : bool) :
  menu_step fromisoformat strftime textwrap_fill net_of st clock choice rest
    = Ok (st', Finished b clock' rest') ->
  (List.length rest' <= List.length rest)%nat.
Proof.
  unfold menu_step. intros H.
  destruct (String.eqb choice "0"); [injection H as _ _ _ <-; lia|].
  destruct (String.eqb choice "1").
  { apply bind_Ok in H as (up & _ & H).
    apply bind_Ok in H as (q & Hq & H).
    destruct q as [[] c r|]; [|discriminate].
    injection H as _ _ _ <-. now apply browse_rest in Hq. }
  destruct (String.eqb choice "2").
  { apply bind_Ok in H as (past & _ & H).
    apply bind_Ok in H as (q & Hq & H).
    destruct q as [[] c r|]; [|discriminate].
    injection H as _ _ _ <-. now apply browse_rest in Hq. }
  destruct (String.eqb choice "3").
  { destruct (past_cache st) as [|c0 cs].
    - apply bind_Ok in H as (past & _ & H).
      apply bind_Ok in H as (q & Hq & H).
      destruct q as [[] c r|]; [|discriminate].
      injection H as _ _ _ <-. now apply search_session_rest in Hq.
    - apply bind_Ok in H as (q & Hq & H).
      destruct q as [[] c r|]; [|discriminate].
      injection H as _ _ _ <-. now apply search_session_rest in Hq. }
  destruct (String.eqb choice "4").
  { apply bind_Ok in H as (past & _ & H).
    apply bind_Ok in H as (up & _ & H). injection H as _ _ _ <-. lia. }
  injection H as _ _ _ <-. lia.
Qed.

Lemma main_menu_loop_bound (net_of : nat -> network) (turns : nat) :
  forall st clock answers e,
    (List.length (past_cache st) <= 50)%nat ->
    main_menu_loop fromisoformat strftime textwrap_fill net_of turns st clock
      answers
      = Ok e ->
    (List.length (past_cache (state_of e)) <= 50)%nat.
Proof.
  induction turns as [|turns IH]; intros st clock answers e Hst H.
  - injection H as <-. exact Hst.
  - destruct answers as [|choice rest]; [injection H as <-; exact Hst|].
    simpl in H. apply bind_Ok in H as ([st' p] & Hstep & H).
    assert (Hst' : (List.length (past_cache st') <= 50)%nat).
    { destruct (menu_step_inv _ _ _ _ _ _ _ Hstep)
        as [[_ Hp]|[[_ Hp]|Hp]].
      - apply get_past_launches_length in Hp; lia.
      - apply get_past_launches_length in Hp; lia.
      - now rewrite Hp. }
    destruct p as [[] clock' rest'|].
    + injection H as <-. exact Hst'.
    + now apply (IH st' clock' rest').
    + injection H as <-. exact Hst'.
Qed.

(** However long the session and whatever the API returns, the cache of
    past launches never holds more than 50 records. *)
Theorem past_cache_never_exceeds_fifty (net_of : nat -> network)
  (answers : list string) (e : session_end) :
  main_menu fromisoformat strftime textwrap_fill net_of answers = Ok e ->
  (List.length (past_cache (state_of e)) <= 50)%nat.
Proof.
  unfold main_menu. apply main_menu_loop_bound. simpl. lia.
Qed.

(** After "recent launches" (choice 2) the cache holds at most 20
    records, and as long as it is not empty the search (choice 3) runs
    over the cache as it is: it fetches no past launches and leaves the
    caches alone, whatever the network would return.  The 50 launches are
    searched only when the cache is empty. *)
Theorem search_after_recent_uses_cache (net_of : nat -> network)
  (st st' : menu_state) (clock : nat) (rest : list string)
  (p : progress bool) :
  menu_step fromisoformat strftime textwrap_fill net_of st clock "2" rest
    = Ok (st', p) ->
  (List.length (past_cache st') <= 20)%nat /\
  (past_cache st' <> [] ->
   forall net_of' clock' rest',
     menu_step fromisoformat strftime textwrap_fill net_of' st' clock' "3"
       rest' =
     (q <- search_session fromisoformat strftime textwrap_fill net_of'
             (past_cache st') clock' rest' ;;
      Ok (st', turn_of false q))).
Proof.
  intros Hstep. split.
  - unfold menu_step in Hstep. simpl in Hstep.
    apply bind_Ok in Hstep as (past & Hpast & Hstep).
    apply bind_Ok in Hstep as (q & _ & Hstep).
    apply get_past_launches_length in Hpast; [|lia].
    destruct q; injection Hstep as <- _; simpl; lia.
  - intros Hne net_of' clock' rest'. unfold menu_step. simpl.
    destruct (past_cache st') as [|c0 cs]; [contradiction|].
    destruct (search_session _ _ _ _ _ _ _) as [[]|]; reflexivity.
Qed.

Lemma menu_step_alike (net_of : nat -> network) (past up1 up2 : list json)
  (clock : nat) (choice : string) (rest : list string) :
  match
    menu_step fromisoformat strftime textwrap_fill net_of
      {| past_cache := past; upcoming_cache := up1 |} clock choice rest,
    menu_step fromisoformat strftime textwrap_fill net_of
      {| past_cache := past; upcoming_cache := up2 |} clock choice rest
  with
  | Ok (s1, p1), Ok (s2, p2) => past_cache s1 = past_cache s2 /\ p1 = p2
  | Raise e1, Raise e2 => e1 = e2
  | _, _ => False
  end.
Proof.
  unfold menu_step. simpl.
  destruct (String.eqb choice "0"); [now split|].
  destruct (String.eqb choice "1").
  { destruct (get_upcoming_launches _) as [up|e]; simpl; [|reflexivity].
    destruct (browse _ _ _ _ _ _ _ _) as [[]|e]; simpl; auto. }
  destruct (String.eqb choice "2").
  { destruct (get_past_launches _ _) as [p|e]; simpl; [|reflexivity].
    destruct (browse _ _ _ _ _ _ _ _) as [[]|e]; simpl; auto. }
  destruct (String.eqb choice "3").
  { destruct past as [|c0 cs].
    - destruct (get_past_launches _ _) as [p|e]; simpl; [|reflexivity].
      destruct (search_session _ _ _ _ _ _ _) as [[]|e]; simpl; auto.
    - destruct (search_session _ _ _ _ _ _ _) as [[]|e]; simpl; auto. }
  destruct (String.eqb choice "4").
  { destruct (get_past_launches _ _) as [p|e]; simpl; [|reflexivity].
    destruct (get_upcoming_launches _) as [up|e]; simpl; auto. }
  now split.
Qed.

(** The cache of upcoming launches is written and never read: two runs
    of the menu that start with the same past cache and different
    upcoming caches end alike, on any answers and any network. *)
Theorem upcoming_cache_is_never_read (net_of : nat -> network) (turns : nat) :
  forall (past up1 up2 : list json) (clock : nat) (answers : list string),
    ends_alike
      (main_menu_loop fromisoformat strftime textwrap_fill net_of turns
         {| past_cache := past; upcoming_cache := up1 |} clock answers)
      (main_menu_loop fromisoformat strftime textwrap_fill net_of turns
         {| past_cache := past; upcoming_cache := up2 |} clock answers).
Proof.
  induction turns as [|turns IH]; intros past up1 up2 clock answers;
    [reflexivity|].
  destruct answers as [|choice rest]; [reflexivity|]. simpl.
  pose proof (menu_step_alike net_of past up1 up2 clock choice rest) as H.
  destruct (menu_step _ _ _ _ _ _ _ _) as [[s1 p1]|e1];
    destruct (menu_step _ _ _ _ _ _ _ _) as [[s2 p2]|e2];
    simpl; try contradiction; [|exact H].
  destruct H as [Hpast <-]. destruct s1 as [q1 u1], s2 as [q2 u2].
  simpl in Hpast. subst q2.
  destruct p1 as [[] clock' rest'|]; simpl; auto.
Qed.

Lemma main_menu_loop_no_answers (net_of : nat -> network) (turns : nat)
  (st : menu_state) (clock : nat) :
  main_menu_loop fromisoformat strftime textwrap_fill net_of turns st clock []
    = Ok (AtPrompt st).
Proof. now destruct turns. Qed.

Lemma main_menu_loop_turns (net_of : nat -> network) (t1 : nat) :
  forall (t2 : nat) (st : menu_state) (clock : nat) (answers : list string),
    (List.length answers <= t1)%nat -> (List.length answers <= t2)%nat ->
    main_menu_loop fromisoformat strftime textwrap_fill net_of t1 st clock
      answers =
    main_menu_loop fromisoformat strftime textwrap_fill net_of t2 st clock
      answers.
Proof.
  induction t1 as [|t1 IH]; intros t2 st clock answers H1 H2.
  - destruct answers; [|simpl in H1; lia].
    now rewrite !main_menu_loop_no_answers.
  - destruct answers as [|choice rest];
      [now rewrite !main_menu_loop_no_answers|].
    destruct t2 as [|t2]; [simpl in H2; lia|]. simpl in *.
    destruct (menu_step _ _ _ _ _ _ _ _) as [[st' p]|e] eqn:Hstep;
      simpl; [|reflexivity].
    destruct p as [[] clock' rest'|]; try reflexivity.
    apply menu_step_rest in Hstep. apply IH; lia.
Qed.

(** Every turn of the menu reads the choice it acts on, and no prompt
    gives an answer back: a run on [n] answers is over after at most [n]
    turns, and allowing more turns changes nothing. *)
Lemma menu_turns_bounded_by_answers (net_of : nat -> network)
  (turns : nat) (st : menu_state) (clock : nat) (answers : list string) :
  (List.length answers <= turns)%nat ->
  main_menu_loop fromisoformat strftime textwrap_fill net_of turns st clock
    answers =
  main_menu_loop fromisoformat strftime textwrap_fill net_of
    (List.length answers)
    st clock answers.
Proof. intros H. apply main_menu_loop_turns; [exact H | lia]. Qed.




End SessionProps.

Lemma past_cache_never_exceeds_fifty_witness :
  main_menu sample_fromisoformat sample_strftime sample_fill
    (fun _ => serving (JArr [launch_a; launch_b])) ["3"; "crs"; ""; "0"]
  = Ok (Exited {| past_cache := [launch_b; launch_a];
                  upcoming_cache := [] |}) /\
  (List.length [launch_b; launch_a] <= 50)%nat.
Proof.
  split; [reflexivity|].
  apply (past_cache_never_exceeds_fifty unit sample_fromisoformat
           sample_strftime sample_fill
           (fun _ => serving (JArr [launch_a; launch_b]))
           ["3"; "crs"; ""; "0"]
           (Exited {| past_cache := [launch_b; launch_a];
                      upcoming_cache := [] |}) eq_refl).
Defined.

Lemma search_after_recent_uses_cache_witness :
  menu_step sample_fromisoformat sample_strftime sample_fill
    (fun _ => serving (JArr [launch_a; launch_b]))
    {| past_cache := []; upcoming_cache := [] |} 0 "2" [""]
  = Ok ({| past_cache := [launch_b; launch_a]; upcoming_cache := [] |},
        Finished false 2 []) /\
  (List.length [launch_b; launch_a] <= 20)%nat.
Proof.
  split; [reflexivity|].
  apply (search_after_recent_uses_cache unit sample_fromisoformat
           sample_strftime sample_fill
           (fun _ => serving (JArr [launch_a; launch_b]))
           {| past_cache := []; upcoming_cache := [] |}
           {| past_cache := [launch_b; launch_a]; upcoming_cache := [] |}
           0 [""] (Finished false 2 []) eq_refl).
Defined.

